(** * The betting assistant's webhook handler (server.py, models.py)

    A shallow embedding of [receive_message], the handler of the
    [/twilio-webhook/] route, together with the two tables of models.py and
    the in-process dictionaries [user_state] and [sports_list].

    Conventions of the embedding.
    - A Python [str] is a [string]; each character stands for the code point
      of the same number (0..255).  The character classes below are Python's
      on that range.
    - A value decoded from JSON is a [json]; Python's [None] is [JNull].  A
      dict is an association list in insertion order (Python dicts have
      distinct keys; lookups take the first binding).  Reading a value the
      wrong way raises what Python raises ([AttributeError] for [get] on a
      value that is not a dict, and so on).
    - What a call meets outside the process is its [env]: the catalog that
      was fetched at startup, what [fetch_matches] gets from the gateway (any
      JSON value, or a body that is not JSON) and the UUID drawn for a new
      account.
    - An exception that the handler does not catch ends the request; what the
      handler had already done to [user_state] and what it had already sent
      stay, uncommitted database changes are dropped.
    - [send_whatsapp_message] is taken to succeed; the text it sends is kept
      as a [reply] value that carries the interpolated data. *)

From Stdlib Require Import ZArith QArith Lia ZifyNat List Ascii String.
From Stdlib Require Import Sorting.Sorted Sorting.Permutation.
From stdpp Require Import base option list gmap strings.

Local Open Scope string_scope.
Local Open Scope Z_scope.

(** ** Python strings *)

Module PyStr.

Definition code (c : ascii) : N := N_of_ascii c.

Definition between (lo hi : N) (c : ascii) : bool :=
  ((lo <=? code c) && (code c <=? hi))%N.

(** [str.isspace] on one character: TAB..CR, FS..US, SPACE, NEL, NBSP. *)
Definition isspace (c : ascii) : bool :=
  between 9 13 c || between 28 32 c || (code c =? 133)%N || (code c =? 160)%N.

(** [str.isdecimal] on one character: only 0..9 below 256. *)
Definition isdecimal (c : ascii) : bool := between 48 57 c.

(** [str.isdigit] on one character: 0..9 and the superscripts 2, 3 and 1. *)
Definition isdigit_char (c : ascii) : bool :=
  isdecimal c || (code c =? 178)%N || (code c =? 179)%N || (code c =? 185)%N.

(** [str.lower] on one character: A..Z and the upper-case letters of
    0xC0..0xDE (0xD7 is the multiplication sign). *)
Definition lower_char (c : ascii) : ascii :=
  if between 65 90 c || (between 192 222 c && negb (code c =? 215)%N)
  then ascii_of_N (code c + 32) else c.

(** [str.upper] on the characters of a UUID (hex digits and hyphens). *)
Definition upper_char (c : ascii) : ascii :=
  if between 97 122 c then ascii_of_N (code c - 32) else c.

Fixpoint map_chars (f : ascii -> ascii) (s : string) : string :=
  match s with
  | EmptyString => EmptyString
  | String c r => String (f c) (map_chars f r)
  end.

Definition lower (s : string) : string := map_chars lower_char s.
Definition upper (s : string) : string := map_chars upper_char s.

Fixpoint lstrip (s : string) : string :=
  match s with
  | EmptyString => EmptyString
  | String c r => if isspace c then lstrip r else s
  end.

Fixpoint rstrip (s : string) : string :=
  match s with
  | EmptyString => EmptyString
  | String c r =>
      match rstrip r with
      | EmptyString => if isspace c then EmptyString else String c EmptyString
      | r' => String c r'
      end
  end.

(** [s.strip()] *)
Definition strip (s : string) : string := rstrip (lstrip s).

Fixpoint all_chars (p : ascii -> bool) (s : string) : bool :=
  match s with
  | EmptyString => true
  | String c r => p c && all_chars p r
  end.

(** [s.isdigit()]: every character is a digit and there is at least one. *)
Definition isdigit (s : string) : bool :=
  match s with
  | EmptyString => false
  | _ => all_chars isdigit_char s
  end.

(** [s.startswith(p)] *)
Fixpoint startswith (p s : string) : bool :=
  match p, s with
  | EmptyString, _ => true
  | String a p', String b s' => if Ascii.eqb a b then startswith p' s' else false
  | String _ _, EmptyString => false
  end.

Fixpoint split_from (s : string) (cur : option string) : list string :=
  match s with
  | EmptyString => match cur with Some w => [w] | None => [] end
  | String c r =>
      if isspace c then
        match cur with
        | Some w => w :: split_from r None
        | None => split_from r None
        end
      else
        split_from r (Some (match cur with
                            | Some w => w ++ String c EmptyString
                            | None => String c EmptyString
                            end))
  end.

(** [s.split()]: the maximal runs of non-whitespace characters. *)
Definition split (s : string) : list string := split_from s None.

(** [s.split('-')[0]]: the part before the first hyphen. *)
Fixpoint before_hyphen (s : string) : string :=
  match s with
  | EmptyString => EmptyString
  | String c r => if Ascii.eqb c "-" then EmptyString else String c (before_hyphen r)
  end.

(** [s.replace(" ", "_")] *)
Definition spaces_to_underscores (s : string) : string :=
  map_chars (fun c => if Ascii.eqb c " " then "_"%char else c) s.

Definition digit_val (c : ascii) : Z := Z.of_N (code c) - 48.

Definition digit_char (n : nat) : ascii := ascii_of_nat (48 + n).

(** [str(n)] for a natural number [n]; the fuel [n + 1] exceeds the number
    of digits. *)
Fixpoint dec_go (fuel n : nat) (acc : string) : string :=
  match fuel with
  | O => acc
  | S f =>
      let acc' := String (digit_char (n mod 10)) acc in
      if (n <? 10)%nat then acc' else dec_go f (n / 10) acc'
  end.

Definition str_of_nat (n : nat) : string := dec_go (S n) n EmptyString.

End PyStr.

(** ** Exceptions and values *)

(** [IntegrityError] is SQLAlchemy's, for a constraint that fails;
    [DBAPIError] stands for its other wrappers of an error of the driver. *)
Inductive exn : Type :=
| ValueError | TypeError | AttributeError | KeyError | IndexError
| IntegrityError | DBAPIError | OverflowError.

(** The result of an expression that may raise. *)
Inductive result (A : Type) : Type :=
| Ok (a : A)
| Raise (e : exn).
Arguments Ok {A} a.
Arguments Raise {A} e.

Definition rbind {A B} (r : result A) (k : A -> result B) : result B :=
  match r with
  | Ok a => k a
  | Raise e => Raise e
  end.

Declare Scope result_scope.
Delimit Scope result_scope with result.
Notation "'let*' x ':=' r 'in' k" := (rbind r (fun x => k))
  (at level 10, x name, r at level 100, k at level 200) : result_scope.

(** A value as [response.json()] builds it; a float is kept by its rational
    value (the floats that are no numbers are left out). *)
#[local] Set Warnings "-register-all".
Inductive json : Type :=
| JNull
| JBool (b : bool)
| JInt (n : Z)
| JFloat (q : Q)
| JStr (s : string)
| JList (l : list json)
| JDict (kv : list (string * json)).

Module Py.

(** Truth value of [v] in a condition ([if v], [not v]). *)
Definition truthy (v : json) : bool :=
  match v with
  | JNull => false
  | JBool b => b
  | JInt n => negb (n =? 0)
  | JFloat q => negb (Qnum q =? 0)
  | JStr s => negb (String.eqb s "")
  | JList l => match l with [] => false | _ => true end
  | JDict kv => match kv with [] => false | _ => true end
  end.

Fixpoint assoc {A} (k : string) (kv : list (string * A)) : option A :=
  match kv with
  | [] => None
  | (k', v) :: r => if String.eqb k k' then Some v else assoc k r
  end.

(** [v.get(k, d)]: only a dict has [get]. *)
Definition get_default (k : string) (d : json) (v : json) : result json :=
  match v with
  | JDict kv => Ok (default d (assoc k kv))
  | _ => Raise AttributeError
  end.

(** [v.get(k)] *)
Definition get (k : string) (v : json) : result json := get_default k JNull v.

Fixpoint chars (s : string) : list json :=
  match s with
  | EmptyString => []
  | String c r => JStr (String c EmptyString) :: chars r
  end.

(** The elements a [for] loop over [v] visits. *)
Definition iter (v : json) : result (list json) :=
  match v with
  | JList l => Ok l
  | JDict kv => Ok (map (fun p => JStr (fst p)) kv)
  | JStr s => Ok (chars s)
  | _ => Raise TypeError
  end.

(** [len(v)] *)
Definition len (v : json) : result Z :=
  match v with
  | JList l => Ok (Z.of_nat (length l))
  | JDict kv => Ok (Z.of_nat (length kv))
  | JStr s => Ok (Z.of_nat (String.length s))
  | _ => Raise TypeError
  end.

(** [v[i]] for an index [0 <= i]; a dict decoded from JSON has string keys
    only, so an integer key is missing. *)
Definition getitem (v : json) (i : Z) : result json :=
  match v with
  | JList l => match l !! Z.to_nat i with Some x => Ok x | None => Raise IndexError end
  | JStr s => match chars s !! Z.to_nat i with Some x => Ok x | None => Raise IndexError end
  | JDict _ => Raise KeyError
  | _ => Raise TypeError
  end.

(** *** [int(s)] *)

(** The digits after the first one: a digit, or an underscore followed by a
    digit.  Returns the value and the number of digits read. *)
Fixpoint int_digits (l : list ascii) (acc : Z) (count : nat) : option (Z * nat) :=
  match l with
  | [] => Some (acc, count)
  | c :: r =>
      if PyStr.isdecimal c then int_digits r (10 * acc + PyStr.digit_val c) (S count)
      else if Ascii.eqb c "_" then
        match r with
        | d :: r' =>
            if PyStr.isdecimal d
            then int_digits r' (10 * acc + PyStr.digit_val d) (S count)
            else None
        | [] => None
        end
      else None
  end.

Definition int_unsigned (l : list ascii) : option (Z * nat) :=
  match l with
  | c :: r => if PyStr.isdecimal c then int_digits r (PyStr.digit_val c) 1 else None
  | [] => None
  end.

(** The blanks [int] skips at both ends once the text is ASCII. *)
Definition c_isspace (c : ascii) : bool :=
  PyStr.between 9 13 c || (PyStr.code c =? 32)%N.

Fixpoint drop_blanks (l : list ascii) : list ascii :=
  match l with
  | c :: r => if c_isspace c then drop_blanks r else l
  | [] => []
  end.

(** A text with a character above 127 has its whitespace above 127 turned
    into spaces first; an ASCII text is taken as it is. *)
Definition int_prepare (l : list ascii) : list ascii :=
  if forallb (fun c => (PyStr.code c <? 128)%N) l then l
  else map (fun c => if (128 <=? PyStr.code c)%N && PyStr.isspace c
                     then " "%char else c) l.

(** Longest digit string [int] converts (sys.int_info.default_max_str_digits). *)
Definition max_str_digits : nat := 4300.

(** [int(s)]: blanks, an optional sign, digits with single underscores
    between them; [ValueError] otherwise. *)
Definition int (s : string) : result Z :=
  let l := rev (drop_blanks (rev (drop_blanks (int_prepare (list_ascii_of_string s))))) in
  let '(neg, body) :=
    match l with
    | c :: r => if Ascii.eqb c "-" then (true, r)
                else if Ascii.eqb c "+" then (false, r) else (false, l)
    | [] => (false, l)
    end in
  match int_unsigned body with
  | Some (n, count) =>
      if (max_str_digits <? count)%nat then Raise ValueError
      else Ok (if neg then - n else n)
  | None => Raise ValueError
  end.

End Py.

(** ** Kick-off times: [datetime.strptime] and [strftime] *)

Module Kickoff.

Record datetime : Type := mkDatetime {
  year : nat; month : nat; day : nat; hour : nat; minute : nat; second : nat
}.

(** A piece of the regular expression that [strptime] compiles the format
    to: the ways it can match a prefix of the text, first choice first. *)
Definition matcher (A : Type) : Type := list ascii -> list (A * list ascii).

Definition digit (lo hi : nat) : matcher nat := fun l =>
  match l with
  | c :: r =>
      let v := Z.to_nat (PyStr.digit_val c) in
      if PyStr.isdecimal c && (lo <=? v)%nat && (v <=? hi)%nat then [(v, r)] else []
  | [] => []
  end.

(** Two pieces that together read a number, [p] its tens. *)
Definition tens (p q : matcher nat) : matcher nat := fun l =>
  flat_map (fun a => map (fun b => (10 * fst a + fst b, snd b))%nat (q (snd a))) (p l).

Definition blank_then (p : matcher nat) : matcher nat := fun l =>
  match l with
  | c :: r => if Ascii.eqb c " " then p r else []
  | [] => []
  end.

Definition alt {A} (ps : list (matcher A)) : matcher A := fun l =>
  flat_map (fun p => p l) ps.

(** A literal character of the format; the expression ignores case. *)
Definition lit (c : ascii) : matcher unit := fun l =>
  match l with
  | d :: r => if Ascii.eqb (PyStr.lower_char d) (PyStr.lower_char c) then [(tt, r)] else []
  | [] => []
  end.

Definition andthen {A B} (p : matcher A) (k : A -> matcher B) : matcher B := fun l =>
  flat_map (fun a => k (fst a) (snd a)) (p l).

Definition yield {A} (a : A) : matcher A := fun l => [(a, l)].

(** %Y is \d\d\d\d *)
Definition dY : matcher nat := tens (tens (tens (digit 0 9) (digit 0 9)) (digit 0 9)) (digit 0 9).
(** %m is 1[0-2]|0[1-9]|[1-9] *)
Definition dm : matcher nat :=
  alt [tens (digit 1 1) (digit 0 2); tens (digit 0 0) (digit 1 9); digit 1 9].
(** %d is 3[0-1]|[1-2]\d|0[1-9]|[1-9]| [1-9] *)
Definition dd : matcher nat :=
  alt [tens (digit 3 3) (digit 0 1); tens (digit 1 2) (digit 0 9);
       tens (digit 0 0) (digit 1 9); digit 1 9; blank_then (digit 1 9)].
(** %H is 2[0-3]|[0-1]\d|\d *)
Definition dH : matcher nat :=
  alt [tens (digit 2 2) (digit 0 3); tens (digit 0 1) (digit 0 9); digit 0 9].
(** %M is [0-5]\d|\d *)
Definition dM : matcher nat := alt [tens (digit 0 5) (digit 0 9); digit 0 9].
(** %S is 6[0-1]|[0-5]\d|\d *)
Definition dS : matcher nat :=
  alt [tens (digit 6 6) (digit 0 1); tens (digit 0 5) (digit 0 9); digit 0 9].

(** The format "%Y-%m-%dT%H:%M:%SZ". *)
Definition iso_format : matcher datetime :=
  andthen dY (fun y => andthen (lit "-") (fun _ =>
  andthen dm (fun m => andthen (lit "-") (fun _ =>
  andthen dd (fun d => andthen (lit "T") (fun _ =>
  andthen dH (fun h => andthen (lit ":") (fun _ =>
  andthen dM (fun mi => andthen (lit ":") (fun _ =>
  andthen dS (fun s => andthen (lit "Z") (fun _ =>
  yield (mkDatetime y m d h mi s))))))))))))).

Definition is_leap (y : nat) : bool :=
  ((y mod 4 =? 0) && (negb (y mod 100 =? 0) || (y mod 400 =? 0)))%nat.

Definition days_in_month (y m : nat) : nat :=
  match m with
  | 2 => if is_leap y then 29 else 28
  | 4 | 6 | 9 | 11 => 30
  | _ => 31
  end%nat.

(** The checks of the [datetime] constructor (four digits cannot exceed
    its largest year). *)
Definition valid (dt : datetime) : bool :=
  ((1 <=? year dt) && (1 <=? month dt) && (month dt <=? 12)
   && (1 <=? day dt) && (day dt <=? days_in_month (year dt) (month dt))
   && (hour dt <=? 23) && (minute dt <=? 59) && (second dt <=? 59))%nat.

(** [datetime.strptime(s, "%Y-%m-%dT%H:%M:%SZ")] for a [str]: the first
    match of the expression must use up the text and name a real instant. *)
Definition strptime (s : string) : result datetime :=
  match iso_format (list_ascii_of_string s) with
  | (dt, []) :: _ => if valid dt then Ok dt else Raise ValueError
  | _ => Raise ValueError
  end.

Definition month_name (m : nat) : string :=
  match m with
  | 1 => "January" | 2 => "February" | 3 => "March" | 4 => "April"
  | 5 => "May" | 6 => "June" | 7 => "July" | 8 => "August"
  | 9 => "September" | 10 => "October" | 11 => "November" | _ => "December"
  end%nat.

Definition pad2 (n : nat) : string :=
  String (PyStr.digit_char (n / 10 mod 10)) (String (PyStr.digit_char (n mod 10)) EmptyString).

(** A year written with four digits, as a timestamp has it. *)
Definition pad4 (n : nat) : string :=
  String (PyStr.digit_char (n / 1000 mod 10)) (String (PyStr.digit_char (n / 100 mod 10)) (pad2 n)).

(** [dt.strftime("%B %d, %Y at %H:%M UTC")].  The fields go to the C
    library, which writes %d, %H and %M with two digits and, on Linux, %Y
    without leading zeros: the year 999 is written 999. *)
Definition strftime (dt : datetime) : string :=
  month_name (month dt) ++ " " ++ pad2 (day dt) ++ ", " ++ PyStr.str_of_nat (year dt)
  ++ " at " ++ pad2 (hour dt) ++ ":" ++ pad2 (minute dt) ++ " UTC".

(** Lines 278-284 and 318-324: format the kick-off time, falling back to the
    value itself on [ValueError].  [strptime] wants a [str] and raises
    [TypeError] on anything else, which the [except] clause lets through. *)
Definition formatted_time (commence_time : json) : result json :=
  match commence_time with
  | JStr s =>
      match strptime s with
      | Ok dt => Ok (JStr (strftime dt))
      | Raise ValueError => Ok commence_time
      | Raise e => Raise e
      end
  | _ => Raise TypeError
  end.

End Kickoff.

(** ** The tables of models.py *)

(** An f-string: literal text and interpolated values, in order. *)
Inductive piece : Type :=
| Lit (s : string)
| Fmt (v : json).

Record User : Type := mkUser {
  user_id : Z;
  whatsapp_number : string;
  coins_balance : Z;
  referral_code : string
}.

(** What a String column holds.  SQLite keeps a text as it is and turns a
    number into text before it stores it: an integer, or a boolean, which
    the driver binds as 1 or 0, into its decimal digits, a float into the
    text [FloatText] stands for. *)
Inductive cell : Type :=
| Null
| Text (s : string)
| FloatText (q : Q).

(** A row of [bets].  [sport_key] is declared [nullable=False], [match_id]
    is nullable. *)
Record Bet : Type := mkBet {
  bet_id : Z;
  bet_user_id : Z;
  sport_key : cell;
  event_name : list piece;
  match_id : cell;
  status : string;
  cost : Z
}.

Record database : Type := mkDatabase {
  users : list User;
  bets : list Bet
}.

Module Db.

(** The key an integer primary key column gets on insert: 1 in an empty
    table, else one more than the largest key of the table. *)
Definition next_id (ids : list Z) : Z :=
  match ids with
  | [] => 1
  | i :: r => 1 + fold_right Z.max i r
  end.

(** [db.query(User).filter(User.whatsapp_number == n).first()] *)
Definition find_user (n : string) (d : database) : option User :=
  List.find (fun u => String.eqb (whatsapp_number u) n) (users d).

(** [db.add(User(...)); db.commit()]: both [whatsapp_number] and
    [referral_code] are declared unique. *)
Definition add_user (n : string) (balance : Z) (code : string) (d : database)
  : result (database * User) :=
  if existsb (fun u => String.eqb (whatsapp_number u) n || String.eqb (referral_code u) code)
       (users d)
  then Raise IntegrityError
  else
    let u := mkUser (next_id (map user_id (users d))) n balance code in
    Ok (mkDatabase (users d ++ [u]) (bets d), u).

(** What is raised for a statement parameter that the driver cannot bind,
    before the statement runs: it binds [None], a boolean, a float, a text
    and an integer of 64 bits; it refuses a list or a dict, which SQLAlchemy
    passes on as a [DBAPIError] (InterfaceError up to Python 3.10,
    ProgrammingError from 3.11 on), and an integer outside the signed 64-bit
    range, with an [OverflowError] that is passed on as it is. *)
Definition bind_error (v : json) : option exn :=
  match v with
  | JList _ | JDict _ => Some DBAPIError
  | JInt n => if (- 2 ^ 63 <=? n) && (n <? 2 ^ 63) then None else Some OverflowError
  | _ => None
  end.


(** [str(n)] for an integer. *)
Definition str_of_int (n : Z) : string :=
  if n <? 0 then "-" ++ PyStr.str_of_nat (Z.to_nat (- n))
  else PyStr.str_of_nat (Z.to_nat n).

(** What a String column holds once a value that was bound is stored. *)
Definition cell_of (v : json) : cell :=
  match v with
  | JStr s => Text s
  | JInt n => Text (str_of_int n)
  | JBool b => Text (if b then "1" else "0")
  | JFloat q => FloatText q
  | JNull | JList _ | JDict _ => Null
  end.

Definition set_balance (uid : Z) (balance : Z) (us : list User) : list User :=
  map (fun u => if user_id u =? uid
                then mkUser (user_id u) (whatsapp_number u) balance (referral_code u)
                else u) us.

(** Lines 383-393: the new balance of [user] and the new row are written in
    one transaction; if the insert is refused, nothing is written.  The
    parameters are bound in the order of the columns, [sport_key] before
    [match_id]; the constraints are checked when the statement runs. *)
Definition commit_bet (user : User) (balance : Z)
    (event : list piece) (sport matchid : json) (bet_cost : Z) (d : database)
  : result database :=
  match bind_error sport, bind_error matchid with
  | Some x, _ => Raise x
  | None, Some x => Raise x
  | None, None =>
      match sport with
      | JNull => Raise IntegrityError
      | _ =>
          let b := mkBet (next_id (map bet_id (bets d))) (user_id user)
                     (cell_of sport) event (cell_of matchid) "placed" bet_cost in
          Ok (mkDatabase (set_balance (user_id user) balance (users d)) (bets d ++ [b]))
      end
  end.

Definition bets_of (uid : Z) (d : database) : list Bet :=
  filter (fun b => bet_user_id b = uid) (bets d).

Fixpoint insert_desc (b : Bet) (l : list Bet) : list Bet :=
  match l with
  | [] => [b]
  | c :: r => if bet_id c <? bet_id b then b :: l else c :: insert_desc b r
  end.

(** [order_by(Bet.bet_id.desc())] *)
Definition order_desc (l : list Bet) : list Bet := fold_right insert_desc [] l.

(** [db.query(Bet).filter(Bet.user_id == uid).order_by(Bet.bet_id.desc()).limit(5).all()] *)
Definition recent_bets (uid : Z) (d : database) : list Bet :=
  take 5 (order_desc (bets_of uid d)).

(** [db.query(Bet).filter(Bet.user_id == uid).count()] *)
Definition count_bets (uid : Z) (d : database) : Z :=
  Z.of_nat (length (bets_of uid d)).

End Db.

(** ** Conversation state, messages and the world *)

(** The dicts that the handler stores in [user_state]; a number without an
    entry is idle. *)
Inductive entry : Type :=
| select_sport
| select_tournament (sport : string)
| select_match (sport : string) (tournament : json) (matches : json)
| place_bet (sport : string) (tournament : json) (match_ : json).

(** The texts the handler sends, named after what they say, with the source
    line of each and the values it interpolates. *)
Inductive reply : Type :=
| ExitConfirmation                                   (* 160 *)
| Welcome                                            (* 186 *)
| NoTournaments                                      (* 218 *)
| TournamentList (sport : string) (titles : list json)        (* 223 *)
| InvalidSport (sports : list string)                (* 232 *)
| InvalidTournamentInput                             (* 245 *)
| NoMatches                                          (* 260 *)
| MatchList (title : json) (rows : list (json * json * json)) (* 273 *)
| InvalidTournamentSelection                         (* 292 *)
| InvalidMatchInput                                  (* 299 *)
| NoOutcomes                                         (* 314 *)
| OutcomeList (home away time : json) (rows : list (json * json)) (* 327 *)
| InvalidMatchSelection                              (* 351 *)
| InvalidBetFormat                                   (* 359 *)
| NoMatchSelected                                    (* 366 *)
| BetPlaced (team price : json) (bet_cost balance : Z)        (* 395 *)
| InsufficientBalance                                (* 410 *)
| InvalidBetSelection                                (* 413 *)
| InvalidBetCommand                                  (* 416 *)
| SportList (sports : list string)                   (* 425 *)
| AccountDetails (balance : Z) (code : string) (recent : list Bet) (older : option Z) (* 437 *)
| InvalidCommand.                                    (* 481 *)

Record world : Type := mkWorld {
  user_state : gmap string entry;
  db : database;
  outbox : list (string * reply)
}.

(** What a request meets outside the process: the catalog fetched at
    startup, the UUID drawn for a new account, and the match gateway.
    [fetch_matches e k] is what lines 72-86 come to for the event key [k]:
    [Some v] when they return [v], which is whatever JSON value the body of
    the answer decodes to, or the [[]] of line 86 after a failed request;
    [None] when the body is not JSON and [response.json()] raises
    JSONDecodeError, a [ValueError] that [except httpx.HTTPError] lets
    through. *)
Record env : Type := mkEnv {
  sports_list : list (string * json);
  fetch_matches : string -> option json;
  uuid4 : string
}.

(** A webhook call: the header X-Twilio-Signature and the form fields.  Of
    the header the model keeps whether it is there and, if it is, whether
    [validator.validate] accepts it. *)
Record request : Type := mkRequest {
  x_twilio_signature : option bool;
  form_Body : option string;
  form_From : option string
}.

(** The call has a signature and the validator accepts it. *)
Definition signature_valid (req : request) : bool :=
  match x_twilio_signature req with
  | Some accepted => accepted
  | None => false
  end.

(** How a call ends: with a response, with the 403 of line 145, or with an
    exception nobody caught. *)
Inductive outcome : Type :=
| Response (status_code : nat)
| HTTPException (status_code : nat)
| Unhandled (e : exn).

(** ** The handler *)

(** A step of the handler: it goes on with a value, or the call is over. *)
Inductive step (A : Type) : Type :=
| Next (a : A)
| Over (o : outcome).
Arguments Next {A} a.
Arguments Over {A} o.

Definition handler (A : Type) : Type := world -> world * step A.

Definition pure {A} (a : A) : handler A := fun w => (w, Next a).

Definition bind {A B} (h : handler A) (k : A -> handler B) : handler B := fun w =>
  match h w with
  | (w', Next a) => k a w'
  | (w', Over o) => (w', Over o)
  end.

Declare Scope handler_scope.
Delimit Scope handler_scope with handler.
Notation "'do' x <- h ; k" := (bind h (fun x => k))
  (at level 10, x name, h at level 100, k at level 200,
   format "'do'  x  <-  h ; '//' k") : handler_scope.
Notation "'run' h ; k" := (bind h (fun _ => k))
  (at level 10, h at level 100, k at level 200,
   format "'run'  h ; '//' k") : handler_scope.
Local Open Scope handler_scope.

(** [return Response(status_code=200)], and falling off the end of the
    function, which FastAPI answers with status 200 as well. *)
Definition respond {A} (code : nat) : handler A := fun w => (w, Over (Response code)).

Definition raise {A} (e : exn) : handler A := fun w => (w, Over (Unhandled e)).

Definition http_exception {A} (code : nat) : handler A := fun w =>
  (w, Over (HTTPException code)).

(** Evaluate an expression; what it raises ends the call. *)
Definition eval {A} (r : result A) : handler A :=
  match r with
  | Ok a => pure a
  | Raise e => raise e
  end.

(** [send_whatsapp_message(to, body)] *)
Definition send_whatsapp_message (to : string) (body : reply) : handler unit := fun w =>
  (mkWorld (user_state w) (db w) (outbox w ++ [(to, body)]), Next tt).

(** [user_state[n] = e] *)
Definition set_state (n : string) (e : entry) : handler unit := fun w =>
  (mkWorld (<[n := e]> (user_state w)) (db w) (outbox w), Next tt).

(** [user_state.pop(n, None)] *)
Definition pop_state (n : string) : handler unit := fun w =>
  (mkWorld (delete n (user_state w)) (db w) (outbox w), Next tt).

(** [user_state.get(n)] *)
Definition get_state (n : string) : handler (option entry) := fun w =>
  (w, Next (user_state w !! n)).

Definition read_db : handler database := fun w => (w, Next (db w)).

Definition write_db (d : database) : handler unit := fun w =>
  (mkWorld (user_state w) d (outbox w), Next tt).

Fixpoint for_each {A B} (f : A -> result B) (l : list A) : result (list B) :=
  match l with
  | [] => Ok []
  | x :: r =>
      (let* y := f x in
       let* ys := for_each f r in
       Ok (y :: ys))%result
  end.

(** [[t for t in tournaments if t.get("active")]] *)
Fixpoint only_active (l : list json) : result (list json) :=
  match l with
  | [] => Ok []
  | t :: r =>
      (let* a := Py.get "active" t in
       let* r' := only_active r in
       Ok (if Py.truthy a then t :: r' else r'))%result
  end.

Definition active_tournaments (tournaments : json) : result (list json) :=
  (let* l := Py.iter tournaments in only_active l)%result.

(** [d[k] = v] on a dict kept as a list. *)
Fixpoint dict_set (k v : string) (d : list (string * string)) : list (string * string) :=
  match d with
  | [] => [(k, v)]
  | (k', v') :: r => if String.eqb k k' then (k, v) :: r else (k', v') :: dict_set k v r
  end.

(** Lines 207-208: each sport under its number, then under its lower-cased
    name. *)
Definition sport_mapping (sports : list string) : list (string * string) :=
  let numbered :=
    fold_left (fun d p => dict_set (PyStr.str_of_nat (S (fst p))) (snd p) d)
      (imap (fun i sport => (i, sport)) sports) [] in
  fold_left (fun d sport => dict_set (PyStr.lower sport) sport d) sports numbered.

(** [k in sports_list] *)
Definition has_key (k : string) (d : list (string * json)) : bool :=
  match Py.assoc k d with Some _ => true | None => false end.

(** [sports_list[k]] *)
Definition subscript (k : string) (d : list (string * json)) : result json :=
  match Py.assoc k d with Some v => Ok v | None => Raise KeyError end.

Section Handler.

Variable e : env.

(** Lines 204-239. *)
Definition on_select_sport (from_number incoming_msg : string) : handler unit :=
  let sports := map fst (sports_list e) in
  let selected_sport := Py.assoc incoming_msg (sport_mapping sports) in
  match selected_sport with
  | Some sport =>
      if negb (String.eqb sport "") && has_key sport (sports_list e) then
        run set_state from_number (select_tournament sport);
        do tournaments <- eval (subscript sport (sports_list e));
        do active <- eval (active_tournaments tournaments);
        match active with
        | [] =>
            run send_whatsapp_message from_number NoTournaments;
            run pop_state from_number;
            respond 200
        | _ =>
            do titles <- eval (for_each (Py.get "title") active);
            send_whatsapp_message from_number (TournamentList sport titles)
        end
      else send_whatsapp_message from_number (InvalidSport sports)
  | None => send_whatsapp_message from_number (InvalidSport sports)
  end.

(** [selected_tournament.get("key").lower().replace(" ", "_")] *)
Definition event_key_of (tournament : json) : result string :=
  (let* k := Py.get "key" tournament in
   match k with
   | JStr s => Ok (PyStr.spaces_to_underscores (PyStr.lower s))
   | _ => Raise AttributeError
   end)%result.

(** [await fetch_matches(event_key)], line 256. *)
Definition gateway_answer (r : option json) : result json :=
  match r with
  | Some matches => Ok matches
  | None => Raise ValueError
  end.

(** One line of the list of matches, lines 275-285. *)
Definition match_row (m : json) : result (json * json * json) :=
  (let* commence_time := Py.get "commence_time" m in
   let* home_team := Py.get "home_team" m in
   let* away_team := Py.get "away_team" m in
   let* time := Kickoff.formatted_time commence_time in
   Ok (home_team, away_team, time))%result.

(** Lines 241-293. *)
Definition on_select_tournament (from_number incoming_msg sport : string) : handler unit :=
  match Py.int incoming_msg with
  | Raise ValueError =>
      run send_whatsapp_message from_number InvalidTournamentInput;
      respond 200
  | Raise x => raise x
  | Ok n =>
      let tournament_idx := n - 1 in
      do tournaments <- eval (subscript sport (sports_list e));
      do active <- eval (active_tournaments tournaments);
      if (0 <=? tournament_idx) && (tournament_idx <? Z.of_nat (length active)) then
        do selected_tournament <- eval (Py.getitem (JList active) tournament_idx);
        do event_key <- eval (event_key_of selected_tournament);
        do matches <- eval (gateway_answer (fetch_matches e event_key));
        if negb (Py.truthy matches) then
          run send_whatsapp_message from_number NoMatches;
          run pop_state from_number;
          respond 200
        else
          do title <- eval (Py.get "title" selected_tournament);
          run set_state from_number (select_match sport title matches);
          do items <- eval (Py.iter matches);
          do rows <- eval (for_each match_row items);
          send_whatsapp_message from_number (MatchList title rows)
      else send_whatsapp_message from_number InvalidTournamentSelection
  end.

(** [match.get("odds", {}).get("outcomes", [])] *)
Definition outcomes_of (m : json) : result json :=
  (let* odds := Py.get_default "odds" (JDict []) m in
   Py.get_default "outcomes" (JList []) odds)%result.

(** One line of the list of outcomes, lines 333-336. *)
Definition outcome_row (o : json) : result (json * json) :=
  (let* team := Py.get "name" o in
   let* price := Py.get "price" o in
   Ok (team, price))%result.

(** [0 <= i < len(v)]: the length is only asked for when [0 <= i]. *)
Definition in_range (i : Z) (v : json) : result bool :=
  if 0 <=? i then (let* n := Py.len v in Ok (i <? n))%result else Ok false.

(** Lines 295-352. *)
Definition on_select_match (from_number incoming_msg sport : string)
    (tournament : json) (matches : json) : handler unit :=
  match Py.int incoming_msg with
  | Raise ValueError =>
      run send_whatsapp_message from_number InvalidMatchInput;
      respond 200
  | Raise x => raise x
  | Ok n =>
      let match_idx := n - 1 in
      do ok <- eval (in_range match_idx matches);
      if ok then
        do selected_match <- eval (Py.getitem matches match_idx);
        do match_id <- eval (Py.get "id" selected_match);
        do home_team <- eval (Py.get "home_team" selected_match);
        do away_team <- eval (Py.get "away_team" selected_match);
        do commence_time <- eval (Py.get "commence_time" selected_match);
        do outcomes <- eval (outcomes_of selected_match);
        if negb (Py.truthy outcomes) then
          run send_whatsapp_message from_number NoOutcomes;
          respond 200
        else
          do time <- eval (Kickoff.formatted_time commence_time);
          do items <- eval (Py.iter outcomes);
          do rows <- eval (for_each outcome_row items);
          run send_whatsapp_message from_number (OutcomeList home_team away_team time rows);
          set_state from_number (place_bet sport tournament selected_match)
      else send_whatsapp_message from_number InvalidMatchSelection
  end.

(** The cost of a bet, line 379. *)
Definition bet_cost : Z := 10.

(** Lines 354-417. *)
Definition on_place_bet (from_number incoming_msg : string) (user : User)
    (match_ : json) : handler unit :=
  if PyStr.startswith "bet" incoming_msg then
    let parts := PyStr.split incoming_msg in
    match parts with
    | [_; number] =>
        if negb (PyStr.isdigit number) then
          run send_whatsapp_message from_number InvalidBetFormat;
          respond 200
        else
          do n <- eval (Py.int number);
          let bet_choice := n - 1 in
          if negb (Py.truthy match_) then
            run send_whatsapp_message from_number NoMatchSelected;
            run pop_state from_number;
            respond 200
          else
            do outcomes <- eval (outcomes_of match_);
            do ok <- eval (in_range bet_choice outcomes);
            if ok then
              do selected_outcome <- eval (Py.getitem outcomes bet_choice);
              do selected_team <- eval (Py.get "name" selected_outcome);
              do price <- eval (Py.get "price" selected_outcome);
              if bet_cost <=? coins_balance user then
                let balance := coins_balance user - bet_cost in
                do home_team <- eval (Py.get "home_team" match_);
                do away_team <- eval (Py.get "away_team" match_);
                do sport <- eval (Py.get "sport_key" match_);
                do matchid <- eval (Py.get "id" match_);
                do d <- read_db;
                do d' <- eval (Db.commit_bet user balance
                                 [Fmt home_team; Lit " vs "; Fmt away_team]
                                 sport matchid bet_cost d);
                run write_db d';
                run send_whatsapp_message from_number
                      (BetPlaced selected_team price bet_cost balance);
                pop_state from_number
              else send_whatsapp_message from_number InsufficientBalance
            else send_whatsapp_message from_number InvalidBetSelection
    | _ =>
        run send_whatsapp_message from_number InvalidBetFormat;
        respond 200
    end
  else send_whatsapp_message from_number InvalidBetCommand.

(** Lines 419-491. *)
Definition on_idle (from_number incoming_msg : string) (user : User) : handler unit :=
  run (if String.eqb incoming_msg "start" then
         run set_state from_number select_sport;
         send_whatsapp_message from_number (SportList (map fst (sports_list e)))
       else if String.eqb incoming_msg "my account" then
         do d <- read_db;
         let recent := Db.recent_bets (user_id user) d in
         let older :=
           match recent with
           | [] => None
           | _ => let total_bets := Db.count_bets (user_id user) d in
                  if 5 <? total_bets then Some (total_bets - 5) else None
           end in
         send_whatsapp_message from_number
           (AccountDetails (coins_balance user) (referral_code user) recent older)
       else send_whatsapp_message from_number InvalidCommand);
  respond 200.

(** Lines 171-196: the account of the sender, made on first contact. *)
Definition load_user (from_number : string) : handler User :=
  do d <- read_db;
  match Db.find_user from_number d with
  | Some user => pure user
  | None =>
      let code := PyStr.upper (PyStr.before_hyphen (uuid4 e)) in
      do r <- eval (Db.add_user from_number 500 code d);
      run write_db (fst r);
      run send_whatsapp_message from_number Welcome;
      pure (snd r)
  end.

(** Lines 198-491: the branch for the state of the sender. *)
Definition dispatch (from_number incoming_msg : string) (user : User)
    (state : option entry) : handler unit :=
  match state with
  | Some select_sport => on_select_sport from_number incoming_msg
  | Some (select_tournament sport) => on_select_tournament from_number incoming_msg sport
  | Some (select_match sport tournament matches) =>
      on_select_match from_number incoming_msg sport tournament matches
  | Some (place_bet _ _ match_) => on_place_bet from_number incoming_msg user match_
  | None => on_idle from_number incoming_msg user
  end.

(** Lines 156-491: what is done with a message once its sender is known. *)
Definition process (from_number incoming_msg : string) : handler unit :=
  do current <- get_state from_number;
  run (if String.eqb incoming_msg "exit" then
         match current with
         | Some _ =>
             run pop_state from_number;
             run send_whatsapp_message from_number ExitConfirmation;
             respond 200
         | None => pure tt
         end
       else pure tt);
  do user <- load_user from_number;
  do state <- get_state from_number;
  dispatch from_number incoming_msg user state.

(** [form.get('Body', '').strip().lower()] *)
Definition incoming_msg_of (req : request) : string :=
  PyStr.lower (PyStr.strip (default "" (form_Body req))).

(** [form.get('From', '').strip()] *)
Definition from_number_of (req : request) : string :=
  PyStr.strip (default "" (form_From req)).

(** Lines 132-154.  Without the header, [validator.validate] is given
    [None] for the signature and raises [TypeError] when it compares it with
    the one it computed. *)
Definition receive_message_body (req : request) : handler unit :=
  match x_twilio_signature req with
  | None => raise TypeError
  | Some accepted =>
      if negb accepted then http_exception 403 else
      if String.eqb (from_number_of req) "" then respond 200 else
      process (from_number_of req) (incoming_msg_of req)
  end.

Definition finish (r : world * step unit) : world * outcome :=
  match r with
  | (w', Next _) => (w', Response 200)
  | (w', Over o) => (w', o)
  end.

(** The route [/twilio-webhook/]: the world after the call and how it ended. *)
Definition receive_message (req : request) (w : world) : world * outcome :=
  finish (receive_message_body req w).

End Handler.

(** ** Notions used in the statements *)

(** A call that gets past the signature check and names its sender. *)
Definition authenticated (req : request) : Prop :=
  signature_valid req = true /\ from_number_of req <> "".

(** The world once [body] has been sent to [to]. *)
Definition sent (to : string) (body : reply) (w : world) : world :=
  mkWorld (user_state w) (db w) (outbox w ++ [(to, body)]).

(** A non-empty text of the digits 0..9. *)
Definition decimal (d : string) : Prop :=
  d <> "" /\ PyStr.all_chars PyStr.isdecimal d = true.

(** The value of key [k] in the dict with the items [kv], [None] if absent. *)
Definition item (k : string) (kv : list (string * json)) : json :=
  default JNull (Py.assoc k kv).

(** The value of key [k] of [v], [None] if [v] is no dict or has no [k]. *)
Definition item_of (k : string) (v : json) : json :=
  match v with JDict kv => item k kv | _ => JNull end.

(** The instant [dt] written as YYYY-MM-DDTHH:MM:SSZ. *)
Definition iso_text (dt : Kickoff.datetime) : string :=
  Kickoff.pad4 (Kickoff.year dt) ++ "-" ++ Kickoff.pad2 (Kickoff.month dt) ++ "-"
  ++ Kickoff.pad2 (Kickoff.day dt) ++ "T" ++ Kickoff.pad2 (Kickoff.hour dt) ++ ":"
  ++ Kickoff.pad2 (Kickoff.minute dt) ++ ":" ++ Kickoff.pad2 (Kickoff.second dt) ++ "Z".

(** The account of [n] with another balance. *)
Definition with_balance (u : User) (balance : Z) : User :=
  mkUser (user_id u) (whatsapp_number u) balance (referral_code u).

(** The replies that turn an input down and ask again. *)
Definition invalid_reply (r : reply) : bool :=
  match r with
  | InvalidSport _ | InvalidTournamentInput | InvalidTournamentSelection
  | InvalidMatchInput | InvalidMatchSelection | InvalidBetFormat
  | InvalidBetSelection | InvalidBetCommand | InvalidCommand => true
  | _ => false
  end.

(** [rejected e state msg r]: in [state] the handler classifies [msg] as
    invalid or malformed, and [r] is the reply of that class.  The
    conditions are those of the branches that send [r]. *)
Inductive rejected (e : env) : option entry -> string -> reply -> Prop :=
| rej_command msg :
    msg <> "start" -> msg <> "my account" ->
    rejected e None msg InvalidCommand
| rej_sport_unknown msg :
    msg <> "exit" ->
    Py.assoc msg (sport_mapping (map fst (sports_list e))) = None ->
    rejected e (Some select_sport) msg (InvalidSport (map fst (sports_list e)))
| rej_sport_unusable msg sport :
    msg <> "exit" ->
    Py.assoc msg (sport_mapping (map fst (sports_list e))) = Some sport ->
    negb (String.eqb sport "") && has_key sport (sports_list e) = false ->
    rejected e (Some select_sport) msg (InvalidSport (map fst (sports_list e)))
| rej_tournament_input msg sport :
    msg <> "exit" ->
    Py.int msg = Raise ValueError ->
    rejected e (Some (select_tournament sport)) msg InvalidTournamentInput
| rej_tournament_range msg sport n tournaments active :
    msg <> "exit" ->
    Py.int msg = Ok n ->
    subscript sport (sports_list e) = Ok tournaments ->
    active_tournaments tournaments = Ok active ->
    ~ (1 <= n <= Z.of_nat (length active)) ->
    rejected e (Some (select_tournament sport)) msg InvalidTournamentSelection
| rej_match_input msg sport tournament matches :
    msg <> "exit" ->
    Py.int msg = Raise ValueError ->
    rejected e (Some (select_match sport tournament matches)) msg InvalidMatchInput
| rej_match_range msg sport tournament matches n :
    msg <> "exit" ->
    Py.int msg = Ok n ->
    in_range (n - 1) matches = Ok false ->
    rejected e (Some (select_match sport tournament matches)) msg InvalidMatchSelection
| rej_bet_command msg sport tournament m :
    msg <> "exit" ->
    PyStr.startswith "bet" msg = false ->
    rejected e (Some (place_bet sport tournament m)) msg InvalidBetCommand
| rej_bet_tokens msg sport tournament m :
    PyStr.startswith "bet" msg = true ->
    length (PyStr.split msg) <> 2%nat ->
    rejected e (Some (place_bet sport tournament m)) msg InvalidBetFormat
| rej_bet_number msg sport tournament m word number :
    PyStr.startswith "bet" msg = true ->
    PyStr.split msg = [word; number] ->
    PyStr.isdigit number = false ->
    rejected e (Some (place_bet sport tournament m)) msg InvalidBetFormat
| rej_bet_range msg sport tournament m word number n outcomes :
    PyStr.startswith "bet" msg = true ->
    PyStr.split msg = [word; number] ->
    PyStr.isdigit number = true ->
    Py.int number = Ok n ->
    Py.truthy m = true ->
    outcomes_of m = Ok outcomes ->
    in_range (n - 1) outcomes = Ok false ->
    rejected e (Some (place_bet sport tournament m)) msg InvalidBetSelection.

Definition is_dict (v : json) : Prop :=
  match v with JDict _ => True | _ => False end.

(** The gateway answers with lists: whatever [fetch_matches] returns is a
    list. *)
Definition answers_lists (e : env) : Prop :=
  forall k v, fetch_matches e k = Some v -> exists l, v = JList l.

(** What an entry of [user_state] holds, by its tag.  [lists] says that the
    gateway has answered with lists. *)
Definition wf_entry (lists : Prop) (catalog : list (string * json)) (en : entry) : Prop :=
  match en with
  | select_sport => True
  | select_tournament sport => has_key sport catalog = true
  | select_match _ _ matches =>
      Py.truthy matches = true
      /\ (lists -> exists l, matches = JList l /\ l <> [])
  | place_bet _ _ m =>
      exists items, outcomes_of m = Ok (JList items) /\ items <> []
                    /\ Forall is_dict items
  end.

Definition wf_world (lists : Prop) (catalog : list (string * json)) (w : world) : Prop :=
  forall n en, user_state w !! n = Some en ->
    wf_entry lists catalog en /\ is_Some (Db.find_user n (db w)).

(** The worlds the process can be in: it starts with an empty [user_state]
    over whatever the database file holds, then serves calls, all against
    the catalog fetched at startup; [gateway] is what is known of the
    gateway during the calls. *)
Inductive reachable (gateway : env -> Prop) (catalog : list (string * json))
  : world -> Prop :=
| reach_start d : reachable gateway catalog (mkWorld ∅ d [])
| reach_call e req w :
    reachable gateway catalog w -> sports_list e = catalog -> gateway e ->
    reachable gateway catalog (fst (receive_message e req w)).

(** Nothing is known of the gateway. *)
Definition any_gateway (e : env) : Prop := True.

(** What one call for the sender [n] may do to the world: the entries of
    other senders stay; an entry of [n] afterwards is the one it had or a
    well-formed one; no account disappears; what is sent is added to the
    outbox, and is never the "no match selected" text. *)
Definition footprint (lists : Prop) (catalog : list (string * json)) (n : string)
    (w w' : world) : Prop :=
  (forall m, m <> n -> user_state w' !! m = user_state w !! m)
  /\ (forall en, user_state w' !! n = Some en ->
        user_state w !! n = Some en \/ wf_entry lists catalog en)
  /\ (forall m, is_Some (Db.find_user m (db w)) -> is_Some (Db.find_user m (db w')))
  /\ (exists new : list (string * reply),
        outbox w' = (outbox w ++ new)%list
        /\ Forall (fun x => snd x <> NoMatchSelected) new).

(** The entry of a sender whose call can end in the [KeyError] of a
    subscript: [select_match] with matches that are a dict. *)
Definition holds_object (st : option entry) : Prop :=
  exists sport tournament kv, st = Some (select_match sport tournament (JDict kv)).

(** The account summary lists the bets by falling id. *)


(** What a call comes to once the account of [n] is loaded: [k] of the
    world and the account, or the failure of the load. *)
Definition after_load (e : env) (n : string) (w : world)
    (k : world -> User -> world) : world * outcome :=
  match load_user e n w with
  | (w1, Next u) => (k w1 u, Response 200)
  | (w1, Over o) => (w1, o)
  end.

(** ** Sample data *)

Module Sample.

Definition outcomes : list json :=
  [JDict [("name", JStr "Arsenal"); ("price", JFloat (3 # 2))];
   JDict [("name", JStr "Chelsea"); ("price", JInt 3)]].

Definition game : list (string * json) :=
  [("id", JStr "m1"); ("sport_key", JStr "soccer_epl");
   ("home_team", JStr "Arsenal"); ("away_team", JStr "Chelsea");
   ("commence_time", JStr "2024-01-05T13:30:00Z");
   ("odds", JDict [("outcomes", JList outcomes)])].



(** A match the gateway lists without outcomes. *)
Definition game_without_outcomes : list (string * json) :=
  [("id", JStr "m2"); ("sport_key", JStr "soccer_epl");
   ("home_team", JStr "Leeds"); ("away_team", JStr "Fulham");
   ("commence_time", JStr "2024-01-06T15:00:00Z");
   ("odds", JDict [("outcomes", JList [])])].

(** A match the gateway lists without a kick-off time. *)
Definition game_without_time : list (string * json) :=
  [("id", JStr "m3"); ("sport_key", JStr "soccer_epl");
   ("home_team", JStr "Everton"); ("away_team", JStr "Burnley");
   ("odds", JDict [("outcomes", JList outcomes)])].

Definition catalog : list (string * json) :=
  [("Soccer", JList [JDict [("title", JStr "EPL"); ("key", JStr "Soccer EPL");
                            ("active", JBool true)];
                     JDict [("title", JStr "Cup"); ("key", JStr "soccer_cup");
                            ("active", JBool false)]]);
   ("Tennis", JList [])].

Definition environment : env :=
  mkEnv catalog
    (fun k => Some (JList (if String.eqb k "soccer_epl" then [JDict game] else [])))
    "1b9d6bcd-bbfd-4b2d-9b5d-ab8dfbbd4bed".

Definition number : string := "whatsapp:+15550100".

Definition message (body : string) : request :=
  mkRequest (Some true) (Some body) (Some number).

Definition account (balance : Z) : User := mkUser 1 number balance "C0FFEE00".




(** The world in which the one account has [balance] coins, no bets, and
    the conversation is in [state]. *)
Definition world_in (state : option entry) (balance : Z) : world :=
  mkWorld (match state with Some en => {[ number := en ]} | None => ∅ end)
    (mkDatabase [account balance] []) [].

End Sample.

(** ** Startup: the seeding of lines 106-128 *)

Module Startup.

(** A [Bet(...)] before it is inserted; a column that was not given is
    [None]. *)
Record pending_bet : Type := mkPending {
  p_user_id : option Z;
  p_sport_key : json;
  p_event_name : json;
  p_match_id : json;
  p_cost : Z
}.

(** Lines 113-120: one row for each active tournament, with the title and
    the key of the tournament and the cost 10. *)
Fixpoint tournament_rows (tournaments : list json) : result (list pending_bet) :=
  match tournaments with
  | [] => Ok []
  | t :: r =>
      (let* active := Py.get "active" t in
       if Py.truthy active then
         let* title := Py.get "title" t in
         let* key := Py.get "key" t in
         let* rows := tournament_rows r in
         Ok (mkPending None key title JNull 10 :: rows)
       else tournament_rows r)%result
  end.

(** Lines 111-120: the rows of all sports. *)
Fixpoint hardcoded_bets (catalog : list (string * json)) : result (list pending_bet) :=
  match catalog with
  | [] => Ok []
  | (_, tournaments) :: r =>
      (let* l := Py.iter tournaments in
       let* rows := tournament_rows l in
       let* rest := hardcoded_bets r in
       Ok (rows ++ rest)%list)%result
  end.

(** [db.add_all(rows); db.commit()]: a row is refused when a value cannot be
    bound, or when [user_id], [sport_key] or [event_name], which are declared
    [nullable=False], is missing; a row that goes in gets the default status
    "pending".  One refused row refuses them all. *)
Fixpoint add_all (rows : list pending_bet) (d : database) : result database :=
  match rows with
  | [] => Ok d
  | p :: r =>
      match Db.bind_error (p_sport_key p), Db.bind_error (p_event_name p),
            Db.bind_error (p_match_id p) with
      | Some x, _, _ | None, Some x, _ | None, None, Some x => Raise x
      | None, None, None =>
          match p_user_id p, p_sport_key p, p_event_name p with
          | None, _, _ | _, JNull, _ | _, _, JNull => Raise IntegrityError
          | Some uid, sport, event =>
              add_all r
                (mkDatabase (users d)
                   (bets d ++ [mkBet (Db.next_id (map bet_id (bets d))) uid
                                 (Db.cell_of sport) [Fmt event]
                                 (Db.cell_of (p_match_id p)) "pending" (p_cost p)]))
          end
      end
  end.

(** Lines 107-128: the seeding runs when the ledger is empty; whatever is
    raised on the way is logged, and the session is closed without a
    commit. *)
Definition seed (catalog : list (string * json)) (d : database) : database :=
  if (Z.of_nat (length (bets d)) =? 0) then
    match hardcoded_bets catalog with
    | Ok [] => d
    | Ok rows =>
        match add_all rows d with
        | Ok d' => d'
        | Raise _ => d
        end
    | Raise _ => d
    end
  else d.

End Startup.

(** ** Notions used in the further statements *)

(** The keys of the two tables are what models.py declares them to be:
    primary keys and unique columns have no value twice. *)
Definition db_ok (d : database) : Prop :=
  NoDup (map user_id (users d))
  /\ NoDup (map whatsapp_number (users d))
  /\ NoDup (map referral_code (users d))
  /\ NoDup (map bet_id (bets d)).

(** The coins on all accounts, and the coins staked in all bets. *)
Definition coins (d : database) : Z := fold_right Z.add 0 (map coins_balance (users d)).
Definition staked (d : database) : Z := fold_right Z.add 0 (map cost (bets d)).

(** The moves of the conversation of one sender: from the entry before a
    call to the entry after it. *)
Inductive transition (e : env) : option entry -> option entry -> Prop :=
| tr_stay st : transition e st st
| tr_reset st : transition e (Some st) None
| tr_start : transition e None (Some select_sport)
| tr_sport sport :
    has_key sport (sports_list e) = true -> sport <> "" ->
    transition e (Some select_sport) (Some (select_tournament sport))
| tr_tournament sport tournament tournaments active key matches :
    subscript sport (sports_list e) = Ok tournaments ->
    active_tournaments tournaments = Ok active ->
    tournament ∈ active ->
    event_key_of tournament = Ok key ->
    fetch_matches e key = Some matches ->
    Py.truthy matches = true ->
    transition e (Some (select_tournament sport))
      (Some (select_match sport (item_of "title" tournament) matches))
| tr_match sport tournament matches m :
    m ∈ matches ->
    transition e (Some (select_match sport tournament (JList matches)))
      (Some (place_bet sport tournament m)).

(** Whether the sender [n] has an account. *)
Definition known (n : string) (w : world) : bool :=
  match Db.find_user n (db w) with Some _ => true | None => false end.

Definition betting (st : option entry) : bool :=
  match st with Some (place_bet _ _ _) => true | _ => false end.

(** The exceptions a call with an accepted signature can end in, by the
    state of the sender and by whether the sender has an account. *)
Definition may_escape (has_account : bool) (st : option entry) (x : exn) : bool :=
  match x with
  | IndexError => false
  | IntegrityError => negb has_account || betting st
  | TypeError | AttributeError => match st with Some _ => true | None => false end
  | KeyError =>
      match st with
      | Some (select_tournament _) | Some (select_match _ _ (JDict _))
      | Some (place_bet _ _ _) => true
      | _ => false
      end
  | ValueError =>
      match st with
      | Some (select_tournament _) | Some (place_bet _ _ _) => true
      | _ => false
      end
  | DBAPIError | OverflowError => betting st
  end.

(** The number that the digits of [l] write, read from the left. *)
Definition digits_value (l : list ascii) : Z :=
  fold_left (fun acc c => 10 * acc + PyStr.digit_val c) l 0.

(** The kick-off time as the lists show it: rendered if [strptime] reads
    it, as it is otherwise. *)
Definition shown_time (s : string) : string :=
  match Kickoff.strptime s with
  | Ok dt => Kickoff.strftime dt
  | Raise _ => s
  end.

(** A match that is a dict and has a text as its kick-off time. *)
Definition timed (m : json) : Prop :=
  is_dict m /\ exists s, item_of "commence_time" m = JStr s.

(** The line of a match in the list of matches, and of an outcome in the
    list of outcomes. *)
Definition match_line (m : json) : json * json * json :=
  (item_of "home_team" m, item_of "away_team" m,
   match item_of "commence_time" m with
   | JStr s => JStr (shown_time s)
   | v => v
   end).

Definition outcome_line (o : json) : json * json :=
  (item_of "name" o, item_of "price" o).

(** ** Strings *)

Lemma decimal_not_space c : PyStr.isdecimal c = true -> PyStr.isspace c = false.
Proof. destruct c as [[] [] [] [] [] [] [] []]; vm_compute; congruence. Qed.

Lemma decimal_isdigit_char c : PyStr.isdecimal c = true -> PyStr.isdigit_char c = true.
Proof. unfold PyStr.isdigit_char. intros ->. reflexivity. Qed.

Lemma append_cons a (s t : string) : String a s ++ t = String a (s ++ t).
Proof. reflexivity. Qed.

Lemma append_empty (s : string) : s ++ "" = s.
Proof. induction s as [|a s IH]; [reflexivity|]. rewrite append_cons, IH. reflexivity. Qed.

Lemma append_assoc (s t u : string) : (s ++ t) ++ u = s ++ (t ++ u).
Proof.
  induction s as [|a s IH]; [reflexivity|]. rewrite !append_cons, IH. reflexivity.
Qed.

Lemma split_from_word d : forall w,
  PyStr.all_chars PyStr.isdecimal d = true ->
  PyStr.split_from d (Some w) = [w ++ d].
Proof.
  induction d as [|c d IH]; intros w H; simpl in *.
  - rewrite append_empty. reflexivity.
  - apply andb_prop in H as [Hc Hd].
    rewrite (decimal_not_space _ Hc), (IH _ Hd), append_assoc. reflexivity.
Qed.

Lemma split_bet d : decimal d -> PyStr.split ("bet " ++ d) = ["bet"; d].
Proof.
  intros [Hne H]. destruct d as [|c d]; [congruence|].
  simpl in H. apply andb_prop in H as [Hc Hd].
  unfold PyStr.split. rewrite !append_cons. simpl.
  change ("" ++ String c d) with (String c d). simpl.
  rewrite (decimal_not_space _ Hc), (split_from_word _ _ Hd). reflexivity.
Qed.

Lemma decimal_isdigit d : decimal d -> PyStr.isdigit d = true.
Proof.
  intros [Hne H]. destruct d as [|c d]; [congruence|].
  unfold PyStr.isdigit. revert H. generalize (String c d). clear.
  induction s; simpl; [reflexivity|].
  intros H. apply andb_prop in H as [Hc Hd].
  rewrite (decimal_isdigit_char _ Hc), IHs; auto.
Qed.

(** ** The monad *)

Ltac hstep :=
  unfold bind, pure, eval, raise, respond, http_exception, send_whatsapp_message,
    set_state, pop_state, get_state, read_db, write_db; simpl.

(** Split the run of a handler into its paths. *)
Ltac hcases :=
  repeat (first
    [ progress (unfold bind, pure, eval, raise, respond, http_exception,
                  send_whatsapp_message, set_state, pop_state, get_state,
                  read_db, write_db in *; cbn beta iota in * )
    | case_match ]; simplify_eq).

Lemma find_user_number n d u : Db.find_user n d = Some u -> whatsapp_number u = n.
Proof.
  unfold Db.find_user. intros H. apply find_some in H as [_ H].
  apply String.eqb_eq in H. exact H.
Qed.

Lemma find_user_app_new n us u bs :
  List.find (fun u => String.eqb (whatsapp_number u) n) us = None ->
  whatsapp_number u = n ->
  Db.find_user n (mkDatabase (us ++ [u]) bs) = Some u.
Proof.
  unfold Db.find_user. simpl. intros Hnone Hn.
  induction us as [|a us IH]; simpl in *.
  - rewrite Hn, String.eqb_refl. reflexivity.
  - destruct (String.eqb (whatsapp_number a) n); [discriminate|]. auto.
Qed.

Lemma find_user_app_old n us u bs x :
  List.find (fun u => String.eqb (whatsapp_number u) n) us = Some x ->
  Db.find_user n (mkDatabase (us ++ [u]) bs) = Some x.
Proof.
  unfold Db.find_user. simpl. induction us as [|a us IH]; simpl; [discriminate|].
  destruct (String.eqb (whatsapp_number a) n); auto.
Qed.

Section Loading.

Variable e : env.

(** Loading the account leaves [user_state] alone. *)
Lemma load_user_state n w w1 r :
  load_user e n w = (w1, r) -> user_state w1 = user_state w.
Proof.
  unfold load_user. hstep.
  destruct (Db.find_user n (db w)); hstep.
  - intros [= <- _]. reflexivity.
  - destruct (Db.add_user _ _ _ _); hstep; intros [= <- _]; reflexivity.
Qed.

Lemma load_user_known n w u :
  Db.find_user n (db w) = Some u -> load_user e n w = (w, Next u).
Proof. unfold load_user. hstep. intros ->. reflexivity. Qed.

(** After a successful load the account is in the table, and a second load
    changes nothing. *)
Lemma load_user_found n w w1 u :
  load_user e n w = (w1, Next u) -> Db.find_user n (db w1) = Some u.
Proof.
  unfold load_user. hstep.
  destruct (Db.find_user n (db w)) eqn:Hf; hstep.
  - intros [= <- <-]. exact Hf.
  - unfold Db.add_user.
    destruct (existsb _ _); hstep; [discriminate|].
    intros [= <- <-]. simpl. apply find_user_app_new; [exact Hf | reflexivity].
Qed.

(** A load either finds the account, or adds it and sends the welcome, or
    is refused by the database. *)
Lemma load_user_cases n w :
  (exists u, Db.find_user n (db w) = Some u /\ load_user e n w = (w, Next u))
  \/ (exists u, Db.find_user n (db w) = None
        /\ Db.add_user n 500 (PyStr.upper (PyStr.before_hyphen (uuid4 e))) (db w)
           = Ok (mkDatabase (users (db w) ++ [u]) (bets (db w)), u)
        /\ load_user e n w
           = (mkWorld (user_state w) (mkDatabase (users (db w) ++ [u]) (bets (db w)))
                (outbox w ++ [(n, Welcome)]), Next u))
  \/ (Db.find_user n (db w) = None /\ load_user e n w = (w, Over (Unhandled IntegrityError))).
Proof.
  unfold load_user. hstep.
  destruct (Db.find_user n (db w)) eqn:Hf; hstep.
  - left. eauto.
  - right. unfold Db.add_user.
    destruct (existsb _ _); hstep.
    + right. auto.
    + left. eexists. repeat split; reflexivity.
Qed.

End Loading.

(** ** From the route to the branches *)

Section Serving.

Variable e : env.

Lemma receive_message_authenticated req w :
  authenticated req ->
  receive_message e req w
  = finish (process e (from_number_of req) (incoming_msg_of req) w).
Proof.
  intros [Hsig Hfrom]. unfold receive_message, receive_message_body.
  unfold signature_valid in Hsig.
  destruct (x_twilio_signature req) as [accepted|]; [|discriminate].
  subst accepted. simpl.
  destruct (String.eqb (from_number_of req) "") eqn:E; [|reflexivity].
  apply String.eqb_eq in E. contradiction.
Qed.

(** Lines 157-168: [exit] with an entry. *)
Lemma process_exit n w en :
  user_state w !! n = Some en ->
  process e n "exit" w
  = (mkWorld (delete n (user_state w)) (db w) (outbox w ++ [(n, ExitConfirmation)]),
     Over (Response 200)).
Proof. intros H. unfold process. hstep. rewrite H. reflexivity. Qed.

(** Every other message goes to the branch of the state, after the load. *)
Lemma process_dispatch n msg w :
  msg <> "exit" \/ user_state w !! n = None ->
  process e n msg w
  = match load_user e n w with
    | (w1, Next u) => dispatch e n msg u (user_state w !! n) w1
    | (w1, Over o) => (w1, Over o)
    end.
Proof.
  intros H. unfold process. hstep.
  destruct (String.eqb msg "exit") eqn:E.
  - apply String.eqb_eq in E. destruct H as [H|H]; [contradiction|].
    rewrite H.
    destruct (load_user e n w) as [w1 [u|o]] eqn:L; [|reflexivity].
    rewrite (load_user_state _ _ _ _ _ L), H. reflexivity.
  - destruct (load_user e n w) as [w1 [u|o]] eqn:L; [|reflexivity].
    rewrite (load_user_state _ _ _ _ _ L). reflexivity.
Qed.

(** Lines 419-491, one lemma for each command. *)
Lemma on_idle_start n u w :
  on_idle e n "start" u w
  = (mkWorld (<[n := select_sport]> (user_state w)) (db w)
       (outbox w ++ [(n, SportList (map fst (sports_list e)))]), Over (Response 200)).
Proof. reflexivity. Qed.

Lemma on_idle_invalid n msg u w :
  msg <> "start" -> msg <> "my account" ->
  on_idle e n msg u w = (sent n InvalidCommand w, Over (Response 200)).
Proof.
  intros H1 H2. unfold on_idle.
  apply String.eqb_neq in H1. apply String.eqb_neq in H2.
  rewrite H1, H2. reflexivity.
Qed.

End Serving.

(** ** The global command [exit] *)

(** C4.  A message that reads "exit" once trimmed and lower-cased, from a
    sender with a state entry, removes the entry and sends the exit
    confirmation, and does nothing else: the account is not even loaded.  A
    following "start" stores the entry [select_sport], which has no payload,
    and lists the sports.  From a sender without an entry, "exit" gets the
    help text of the idle branch. *)
Theorem exit_resets_conversation (e e' : env) (req req' : request) (w : world) :
  authenticated req -> incoming_msg_of req = "exit" ->
  authenticated req' -> from_number_of req' = from_number_of req ->
  incoming_msg_of req' = "start" ->
  let n := from_number_of req in
  let left := mkWorld (delete n (user_state w)) (db w)
                (outbox w ++ [(n, ExitConfirmation)]) in
  match user_state w !! n with
  | Some _ =>
      receive_message e req w = (left, Response 200)
      /\ user_state left !! n = None
      /\ receive_message e' req' left
         = after_load e' n left (fun w1 _ =>
             mkWorld (<[n := select_sport]> (user_state left)) (db w1)
               (outbox w1 ++ [(n, SportList (map fst (sports_list e')))]))
  | None =>
      receive_message e req w = after_load e n w (fun w1 _ => sent n InvalidCommand w1)
  end.
Proof.
  intros Ha Hexit Ha' Hfrom Hstart n left.
  rewrite (receive_message_authenticated e req w Ha), Hexit. fold n.
  destruct (user_state w !! n) as [en|] eqn:Hst.
  - split; [|split].
    + rewrite (process_exit e n w en Hst). reflexivity.
    + simpl. apply lookup_delete_eq.
    + rewrite (receive_message_authenticated e' req' left Ha'), Hfrom, Hstart. fold n.
      assert (Hnone : user_state left !! n = None) by (simpl; apply lookup_delete_eq).
      rewrite process_dispatch by (right; exact Hnone).
      unfold after_load.
      destruct (load_user e' n left) as [w1 [u|o]] eqn:L; [|reflexivity].
      rewrite Hnone. unfold dispatch. rewrite on_idle_start.
      rewrite (load_user_state _ _ _ _ _ L). reflexivity.
  - rewrite process_dispatch by (right; exact Hst).
    unfold after_load.
    destruct (load_user e n w) as [w1 [u|o]] eqn:L; [|reflexivity].
    rewrite Hst. unfold dispatch.
    rewrite on_idle_invalid by discriminate. reflexivity.
Qed.

Lemma exit_resets_conversation_witness :
  let req := Sample.message "  Exit " in
  let req' := Sample.message "START" in
  let w := Sample.world_in (Some (select_tournament "Soccer")) 500 in
  authenticated req /\ incoming_msg_of req = "exit"
  /\ user_state (fst (receive_message Sample.environment req w)) !! Sample.number = None
  /\ user_state (fst (receive_message Sample.environment req'
                        (fst (receive_message Sample.environment req w))))
      !! Sample.number = Some select_sport.
Proof.
  intros req req' w.
  assert (Ha : authenticated req) by (split; [reflexivity | discriminate]).
  assert (Ha' : authenticated req') by (split; [reflexivity | discriminate]).
  assert (Hi : incoming_msg_of req = "exit") by reflexivity.
  assert (Hi' : incoming_msg_of req' = "start") by reflexivity.
  pose proof (exit_resets_conversation Sample.environment Sample.environment
                req req' w Ha Hi Ha' eq_refl Hi') as H.
  cbv zeta in H.
  change (from_number_of req) with Sample.number in H.
  assert (Hst : user_state w !! Sample.number = Some (select_tournament "Soccer"))
    by (unfold w; simpl; apply lookup_singleton_eq).
  rewrite Hst in H. destruct H as (H1 & H2 & H3).
  split; [exact Ha|]. split; [exact Hi|].
  rewrite H1. split; [exact H2|].
  cbn [fst]. rewrite H3. unfold after_load.
  rewrite load_user_known with (u := Sample.account 500) by reflexivity.
  cbn [fst user_state]. apply lookup_insert_eq.
Defined.

(** ** Placing a bet *)

Lemma get_dict k kv : Py.get k (JDict kv) = Ok (item k kv).
Proof. reflexivity. Qed.

Lemma in_range_list n items (x : json) :
  1 <= n -> items !! Z.to_nat (n - 1) = Some x ->
  in_range (n - 1) (JList items) = Ok true.
Proof.
  intros Hn Hx. unfold in_range. simpl.
  apply lookup_lt_Some in Hx.
  destruct (0 <=? n - 1) eqn:E; [|apply Z.leb_gt in E; lia].
  f_equal. apply Z.ltb_lt. lia.
Qed.

Lemma outcomes_nonempty_truthy kv items (x : json) :
  outcomes_of (JDict kv) = Ok (JList items) -> items !! 0%nat = Some x \/ items <> [] ->
  Py.truthy (JDict kv) = true.
Proof.
  intros H Hne. destruct kv; [|reflexivity].
  unfold outcomes_of in H. simpl in H. injection H as <-.
  destruct Hne as [Hne|Hne]; [discriminate | congruence].
Qed.

(** Lines 356-411 for a well-formed [bet n] that names an outcome. *)
Lemma on_place_bet_chosen n_from d n u kv items o w :
  decimal d -> Py.int d = Ok n ->
  outcomes_of (JDict kv) = Ok (JList items) ->
  1 <= n -> items !! Z.to_nat (n - 1) = Some (JDict o) ->
  on_place_bet n_from ("bet " ++ d) u (JDict kv) w
  = if bet_cost <=? coins_balance u then
      match Db.commit_bet u (coins_balance u - bet_cost)
              [Fmt (item "home_team" kv); Lit " vs "; Fmt (item "away_team" kv)]
              (item "sport_key" kv) (item "id" kv) bet_cost (db w) with
      | Ok d' =>
          (mkWorld (delete n_from (user_state w)) d'
             (outbox w ++ [(n_from, BetPlaced (item "name" o) (item "price" o) bet_cost
                                      (coins_balance u - bet_cost))]), Next tt)
      | Raise x => (w, Over (Unhandled x))
      end
    else (sent n_from InsufficientBalance w, Next tt).
Proof.
  intros Hd Hint Hout Hn Hitem.
  unfold on_place_bet.
  rewrite (split_bet d Hd), (decimal_isdigit d Hd).
  change ("bet " ++ d) with (String "b" (String "e" (String "t" (String " " d)))).
  cbn [PyStr.startswith Ascii.eqb Bool.eqb negb].
  hstep. rewrite Hint. hstep.
  assert (Ht : Py.truthy (JDict kv) = true).
  { apply (outcomes_nonempty_truthy kv items (JDict o) Hout).
    right. intros ->. discriminate. }
  simpl in Ht. rewrite Ht. simpl.
  rewrite Hout. simpl.
  rewrite (in_range_list n items _ Hn Hitem). simpl.
  rewrite Hitem. simpl.
  destruct (bet_cost <=? coins_balance u); [|reflexivity].
  destruct (Db.commit_bet _ _ _ _ _ _ _); reflexivity.
Qed.


Lemma max_above (ids : list Z) i x : x ∈ i :: ids -> x <= fold_right Z.max i ids.
Proof.
  induction ids as [|a ids IH]; simpl; intros H.
  - apply list_elem_of_singleton in H. lia.
  - apply elem_of_cons in H as [->|H].
    + assert (i <= fold_right Z.max i ids) by (apply IH; left). lia.
    + apply elem_of_cons in H as [->|H]; [lia|].
      assert (x <= fold_right Z.max i ids) by (apply IH; right; exact H). lia.
Qed.

(** The key of a new row is above every key of the table. *)
Lemma next_id_above ids x : x ∈ ids -> x < Db.next_id ids.
Proof.
  destruct ids as [|i ids]; intros H; [inversion H|].
  unfold Db.next_id. pose proof (max_above ids i x H). lia.
Qed.

Lemma next_id_fresh ids : Db.next_id ids ∉ ids.
Proof. intros H. apply next_id_above in H. lia. Qed.



Lemma bet_message_not_exit d : "bet " ++ d <> "exit".
Proof. discriminate. Qed.

(** The state branch of a sender who has an account and an entry. *)
Lemma receive_message_known e req w u msg :
  authenticated req -> incoming_msg_of req = msg -> msg <> "exit" ->
  Db.find_user (from_number_of req) (db w) = Some u ->
  receive_message e req w
  = finish (dispatch e (from_number_of req) msg u
              (user_state w !! from_number_of req) w).
Proof.
  intros Ha Hmsg Hne Hu.
  rewrite (receive_message_authenticated e req w Ha), Hmsg.
  rewrite process_dispatch by (left; exact Hne).
  rewrite (load_user_known e _ w u Hu). reflexivity.
Qed.




(** ** Too few coins *)

(** C2.  In state [place_bet], a message [bet n] that names an outcome of
    the stored match, from an account with fewer than 10 coins, gets the
    insufficient-balance reply and changes nothing else: the tables and
    [user_state] are as before. *)
Theorem bet_refused_for_balance (e : env) (req : request) (w : world) (u : User)
    (sport : string) (tournament : json) (kv o : list (string * json))
    (items : list json) (d : string) (n : Z) :
  authenticated req ->
  user_state w !! from_number_of req = Some (place_bet sport tournament (JDict kv)) ->
  Db.find_user (from_number_of req) (db w) = Some u ->
  incoming_msg_of req = "bet " ++ d -> decimal d -> Py.int d = Ok n ->
  outcomes_of (JDict kv) = Ok (JList items) ->
  1 <= n -> items !! Z.to_nat (n - 1) = Some (JDict o) ->
  coins_balance u < 10 ->
  receive_message e req w
  = (mkWorld (user_state w) (db w)
       (outbox w ++ [(from_number_of req, InsufficientBalance)]), Response 200).
Proof.
  intros Ha Hst Hu Hmsg Hd Hint Hout Hn Hitem Hbal.
  rewrite (receive_message_known e req w u _ Ha Hmsg (bet_message_not_exit d) Hu).
  rewrite Hst. unfold dispatch.
  rewrite (on_place_bet_chosen _ d n u kv items o w Hd Hint Hout Hn Hitem).
  unfold bet_cost.
  destruct (10 <=? coins_balance u) eqn:E; [apply Z.leb_le in E; lia|].
  reflexivity.
Qed.

(** With 5 coins: the reply, and the state still [place_bet]. *)
Lemma bet_refused_for_balance_witness :
  let req := Sample.message "bet 1" in
  let en := place_bet "Soccer" (JStr "EPL") (JDict Sample.game) in
  let w := Sample.world_in (Some en) 5 in
  authenticated req
  /\ receive_message Sample.environment req w
     = (mkWorld (user_state w) (db w) [(Sample.number, InsufficientBalance)], Response 200)
  /\ user_state w !! Sample.number = Some en
  /\ db w = mkDatabase [Sample.account 5] [].
Proof.
  intros req en w.
  assert (Ha : authenticated req) by (split; [reflexivity | discriminate]).
  assert (Hst : user_state w !! from_number_of req = Some en)
    by apply lookup_singleton_eq.
  assert (Hd : decimal "1") by (split; [discriminate | reflexivity]).
  split; [exact Ha|]. split; [|split; [exact Hst | reflexivity]].
  exact (bet_refused_for_balance Sample.environment req w (Sample.account 5)
           "Soccer" (JStr "EPL") Sample.game
           [("name", JStr "Arsenal"); ("price", JFloat (3 # 2))]
           Sample.outcomes "1" 1
           Ha Hst eq_refl eq_refl Hd eq_refl eq_refl ltac:(lia) eq_refl
           ltac:(simpl; lia)).
Defined.

(** ** A match without outcomes *)

Lemma int_exit : Py.int "exit" = Raise ValueError.
Proof. reflexivity. Qed.

Lemma int_not_exit msg n : Py.int msg = Ok n -> msg <> "exit".
Proof. intros H ->. rewrite int_exit in H. discriminate. Qed.

(** Lines 303-316. *)
Lemma on_select_match_no_outcomes from msg sport tournament matches n kv outcomes w :
  Py.int msg = Ok n -> 1 <= n ->
  matches !! Z.to_nat (n - 1) = Some (JDict kv) ->
  outcomes_of (JDict kv) = Ok outcomes -> Py.truthy outcomes = false ->
  on_select_match from msg sport tournament (JList matches) w
  = (sent from NoOutcomes w, Over (Response 200)).
Proof.
  intros Hint Hn Hm Hout Hfalse. unfold on_select_match. rewrite Hint.
  hstep. rewrite (in_range_list n matches _ Hn Hm). simpl.
  rewrite Hm. simpl. rewrite Hout. simpl. rewrite Hfalse. reflexivity.
Qed.

(** C3, amended.  In state [select_match], an index in range that selects a
    match whose outcomes are empty gets the no-outcomes reply, and the entry
    stays as it is: the sender is still in [select_match] with the same
    list of matches. *)
Theorem match_without_outcomes (e : env) (req : request) (w : world) (u : User)
    (sport : string) (tournament : json) (matches : list json)
    (kv : list (string * json)) (outcomes : json) (n : Z) :
  authenticated req ->
  user_state w !! from_number_of req
  = Some (select_match sport tournament (JList matches)) ->
  Db.find_user (from_number_of req) (db w) = Some u ->
  Py.int (incoming_msg_of req) = Ok n -> 1 <= n ->
  matches !! Z.to_nat (n - 1) = Some (JDict kv) ->
  outcomes_of (JDict kv) = Ok outcomes -> Py.truthy outcomes = false ->
  receive_message e req w = (sent (from_number_of req) NoOutcomes w, Response 200)
  /\ user_state (sent (from_number_of req) NoOutcomes w) !! from_number_of req
     = Some (select_match sport tournament (JList matches)).
Proof.
  intros Ha Hst Hu Hint Hn Hm Hout Hfalse. split; [|exact Hst].
  rewrite (receive_message_known e req w u _ Ha eq_refl (int_not_exit _ _ Hint) Hu).
  rewrite Hst. unfold dispatch.
  rewrite (on_select_match_no_outcomes _ _ _ _ _ n kv outcomes w Hint Hn Hm Hout Hfalse).
  reflexivity.
Qed.

Lemma match_without_outcomes_witness :
  let req := Sample.message "1" in
  let en := select_match "Soccer" (JStr "EPL")
              (JList [JDict Sample.game_without_outcomes]) in
  let w := Sample.world_in (Some en) 500 in
  authenticated req
  /\ receive_message Sample.environment req w = (sent Sample.number NoOutcomes w, Response 200)
  /\ user_state (sent Sample.number NoOutcomes w) !! Sample.number = Some en.
Proof.
  intros req en w.
  assert (Ha : authenticated req) by (split; [reflexivity | discriminate]).
  assert (Hst : user_state w !! from_number_of req = Some en)
    by apply lookup_singleton_eq.
  split; [exact Ha|].
  exact (match_without_outcomes Sample.environment req w (Sample.account 500)
           "Soccer" (JStr "EPL") [JDict Sample.game_without_outcomes]
           Sample.game_without_outcomes (JList []) 1
           Ha Hst eq_refl eq_refl ltac:(lia) eq_refl eq_refl eq_refl).
Defined.

(** C3 as stated fails: after the no-outcomes reply the sender is not idle,
    the entry is still there. *)
Lemma no_outcomes_keeps_select_match :
  let req := Sample.message "1" in
  let en := select_match "Soccer" (JStr "EPL")
              (JList [JDict Sample.game_without_outcomes]) in
  let w := Sample.world_in (Some en) 500 in
  user_state w !! Sample.number = Some en
  /\ outcomes_of (JDict Sample.game_without_outcomes) = Ok (JList [])
  /\ outbox (fst (receive_message Sample.environment req w)) = [(Sample.number, NoOutcomes)]
  /\ user_state (fst (receive_message Sample.environment req w)) !! Sample.number <> None.
Proof.
  intros req en w.
  split; [apply lookup_singleton_eq|]. split; [reflexivity|].
  split; [vm_compute; reflexivity|].
  vm_compute. discriminate.
Qed.

(** ** Inputs that are turned down *)





Lemma nothing_sent {A} (l : list A) x : l <> (l ++ [x])%list.
Proof.
  intros H. apply (f_equal length) in H. rewrite length_app in H. simpl in H. lia.
Qed.

Lemma one_sent {A} (l : list A) x y : (l ++ [x])%list = (l ++ [y])%list -> x = y.
Proof. intros H. apply app_inv_head in H. congruence. Qed.

Lemma range_check_outside n len :
  (0 <=? n - 1) && (n - 1 <? len) = false -> ~ (1 <= n <= len).
Proof.
  intros H [H1 H2]. apply andb_false_iff in H as [H|H];
    [apply Z.leb_gt in H | apply Z.ltb_ge in H]; lia.
Qed.

(** Conversely, a branch only sends an invalid-input reply on an input that
    [rejected] lists: the classes of [rejected] are all there are. *)
Lemma rejected_exact e n msg u st w w' r x :
  msg <> "exit" \/ st = None ->
  dispatch e n msg u st w = (w', r) ->
  outbox w' = (outbox w ++ [(n, x)])%list -> invalid_reply x = true ->
  rejected e st msg x.
Proof.
  intros Hx H Hout Hinv. unfold dispatch in H.
  destruct st as [[| sport | sport tournament matches | sport tournament m]|].
  all: (destruct Hx as [Hx|Hx]; [|try discriminate]).
  all: unfold on_select_sport, on_select_tournament, on_select_match, on_place_bet,
         on_idle in H; hcases; simpl in Hout.
  all: try (exfalso; exact (nothing_sent _ _ Hout)).
  all: try (apply one_sent in Hout; injection Hout as <-; try discriminate Hinv).
  all: repeat match goal with
       | H : negb _ = false |- _ => apply negb_false_iff in H
       | H : negb _ = true |- _ => apply negb_true_iff in H
       | H : String.eqb _ _ = false |- _ => apply String.eqb_neq in H
       | H : (_ <=? _) && (_ <? _) = false |- _ => apply range_check_outside in H
       end.
  all: try (econstructor; eauto; fail).
  all: apply rej_bet_tokens; [assumption|];
    match goal with H : PyStr.split _ = _ |- _ => rewrite H end; discriminate.
Qed.



(** An index out of range in [select_match], and a word in [select_tournament]. *)
Example index_out_of_range_turned_down :
  let en := select_match "Soccer" (JStr "EPL") (JList [JDict Sample.game]) in
  let w := Sample.world_in (Some en) 500 in
  receive_message Sample.environment (Sample.message "2") w
  = (sent Sample.number InvalidMatchSelection w, Response 200).
Proof. vm_compute. reflexivity. Qed.

Example word_for_index_turned_down :
  let w := Sample.world_in (Some (select_tournament "Soccer")) 500 in
  receive_message Sample.environment (Sample.message "the first") w
  = (sent Sample.number InvalidTournamentInput w, Response 200).
Proof. vm_compute. reflexivity. Qed.

(** A second token that [isdigit] accepts and [int] does not is not turned
    down: the call ends in [ValueError], with no reply. *)
Example superscript_digit_raises :
  let en := place_bet "Soccer" (JStr "EPL") (JDict Sample.game) in
  let w := Sample.world_in (Some en) 500 in
  PyStr.isdigit (String (ascii_of_nat 178) EmptyString) = true
  /\ receive_message Sample.environment
       (Sample.message ("bet " ++ String (ascii_of_nat 178) EmptyString)) w
     = (w, Unhandled ValueError).
Proof. split; vm_compute; reflexivity. Qed.

(** ** The account summary *)











(** ** What the entries of [user_state] hold *)

Lemma wf_entry_weaken (lists lists' : Prop) catalog en :
  (lists' -> lists) -> wf_entry lists catalog en -> wf_entry lists' catalog en.
Proof.
  intros Himp. destruct en; simpl; auto.
  intros [Ht Hl]. split; [exact Ht | auto].
Qed.

Lemma wf_world_weaken (lists lists' : Prop) catalog w :
  (lists' -> lists) -> wf_world lists catalog w -> wf_world lists' catalog w.
Proof.
  intros Himp Hwf n en Hen. destruct (Hwf n en Hen) as [H1 H2].
  split; [eapply wf_entry_weaken; eassumption | exact H2].
Qed.

Lemma footprint_refl lists catalog n w : footprint lists catalog n w w.
Proof.
  repeat split; auto. exists []. split; [symmetry; apply app_nil_r | constructor].
Qed.

Lemma footprint_trans lists catalog n w1 w2 w3 :
  footprint lists catalog n w1 w2 -> footprint lists catalog n w2 w3 ->
  footprint lists catalog n w1 w3.
Proof.
  intros (A1 & B1 & C1 & new1 & D1 & E1) (A2 & B2 & C2 & new2 & D2 & E2).
  repeat split.
  - intros m Hm. rewrite A2, A1; auto.
  - intros en Hen. destruct (B2 en Hen) as [H|H]; auto.
  - auto.
  - exists (new1 ++ new2)%list. split.
    + rewrite D2, D1, app_assoc. reflexivity.
    + apply Forall_app. split; assumption.
Qed.

(** The shapes a handler leaves the world in. *)
Lemma footprint_sent lists catalog n w st r :
  r <> NoMatchSelected ->
  (st = user_state w \/ st = delete n (user_state w)
   \/ exists en, wf_entry lists catalog en /\ st = <[n := en]> (user_state w)) ->
  footprint lists catalog n w (mkWorld st (db w) (outbox w ++ [(n, r)])).
Proof.
  intros Hr Hst. repeat split; simpl.
  - intros m Hm. destruct Hst as [-> | [-> | (en & _ & ->)]]; auto.
    + apply lookup_delete_ne. congruence.
    + apply lookup_insert_ne. congruence.
  - intros en Hen. destruct Hst as [-> | [-> | (en' & Hwf & ->)]]; auto.
    + rewrite lookup_delete_eq in Hen. discriminate.
    + rewrite lookup_insert_eq in Hen. injection Hen as <-. auto.
  - auto.
  - exists [(n, r)]. split; [reflexivity|]. repeat constructor. exact Hr.
Qed.

Lemma footprint_state lists catalog n w st :
  (st = user_state w \/ st = delete n (user_state w)
   \/ exists en, wf_entry lists catalog en /\ st = <[n := en]> (user_state w)) ->
  footprint lists catalog n w (mkWorld st (db w) (outbox w)).
Proof.
  intros Hst. repeat split; simpl.
  - intros m Hm. destruct Hst as [-> | [-> | (en & _ & ->)]]; auto.
    + apply lookup_delete_ne. congruence.
    + apply lookup_insert_ne. congruence.
  - intros en Hen. destruct Hst as [-> | [-> | (en' & Hwf & ->)]]; auto.
    + rewrite lookup_delete_eq in Hen. discriminate.
    + rewrite lookup_insert_eq in Hen. injection Hen as <-. auto.
  - auto.
  - exists []. split; [symmetry; apply app_nil_r | constructor].
Qed.

(** *** What the expressions of the handler can raise *)

Create HintDb raises.

Lemma get_default_raises k d v x : Py.get_default k d v = Raise x -> x <> KeyError.
Proof. destruct v; simpl; congruence. Qed.

Lemma get_raises k v x : Py.get k v = Raise x -> x <> KeyError.
Proof. apply get_default_raises. Qed.

Lemma get_ok_dict k v a : Py.get k v = Ok a -> is_dict v.
Proof. destruct v; simpl; congruence || exact (fun _ => I). Qed.

Lemma iter_raises v x : Py.iter v = Raise x -> x <> KeyError.
Proof. destruct v; simpl; congruence. Qed.

Lemma len_raises v x : Py.len v = Raise x -> x <> KeyError.
Proof. destruct v; simpl; congruence. Qed.

Lemma int_raises s x : Py.int s = Raise x -> x = ValueError.
Proof.
  unfold Py.int.
  destruct (match rev _ with [] => _ | c :: r => _ end) as [neg body].
  destruct (Py.int_unsigned body) as [[v count]|]; [|congruence].
  destruct (Py.max_str_digits <? count)%nat; congruence.
Qed.

Lemma int_raises_no_key_error s x : Py.int s = Raise x -> x <> KeyError.
Proof. intros H. apply int_raises in H. congruence. Qed.

Lemma for_each_raises {A B} (f : A -> result B) l x :
  (forall a y, f a = Raise y -> y <> KeyError) ->
  for_each f l = Raise x -> x <> KeyError.
Proof.
  intros Hf. induction l as [|a l IH]; simpl; [congruence|].
  destruct (f a) eqn:Ha; simpl; [|intros [= <-]; eauto].
  destruct (for_each f l); simpl; [congruence|]. intros [= <-]. auto.
Qed.

Lemma only_active_raises l x : only_active l = Raise x -> x <> KeyError.
Proof.
  revert x. induction l as [|t l IH]; simpl; intros x; [congruence|].
  destruct (Py.get "active" t) eqn:Ha; simpl.
  - destruct (only_active l); simpl; [congruence|]. intros [= <-]. auto.
  - intros [= <-]. eapply get_raises, Ha.
Qed.

Lemma active_tournaments_raises v x : active_tournaments v = Raise x -> x <> KeyError.
Proof.
  unfold active_tournaments. destruct (Py.iter v) eqn:Hi; simpl.
  - apply only_active_raises.
  - intros [= <-]. eapply iter_raises, Hi.
Qed.

Lemma strptime_raises s x : Kickoff.strptime s = Raise x -> x = ValueError.
Proof.
  unfold Kickoff.strptime.
  destruct (Kickoff.iso_format _) as [|[dt [|c r]] l]; try congruence.
  destruct (Kickoff.valid dt); congruence.
Qed.

Lemma formatted_time_raises v x : Kickoff.formatted_time v = Raise x -> x = TypeError.
Proof.
  destruct v; simpl; try congruence.
  destruct (Kickoff.strptime s) eqn:Hs; [congruence|].
  apply strptime_raises in Hs. subst. congruence.
Qed.

Lemma formatted_time_raises_no_key_error v x :
  Kickoff.formatted_time v = Raise x -> x <> KeyError.
Proof. intros H. apply formatted_time_raises in H. congruence. Qed.

Lemma match_row_raises m x : match_row m = Raise x -> x <> KeyError.
Proof.
  unfold match_row.
  destruct (Py.get "commence_time" m) eqn:H1; simpl; [|intros [= <-]; eapply get_raises, H1].
  destruct (Py.get "home_team" m) eqn:H2; simpl; [|intros [= <-]; eapply get_raises, H2].
  destruct (Py.get "away_team" m) eqn:H3; simpl; [|intros [= <-]; eapply get_raises, H3].
  destruct (Kickoff.formatted_time a) eqn:H4; simpl; [congruence|].
  intros [= <-]. eapply formatted_time_raises_no_key_error, H4.
Qed.

Lemma outcome_row_raises o x : outcome_row o = Raise x -> x <> KeyError.
Proof.
  unfold outcome_row.
  destruct (Py.get "name" o) eqn:H1; simpl; [|intros [= <-]; eapply get_raises, H1].
  destruct (Py.get "price" o) eqn:H2; simpl; [congruence|].
  intros [= <-]. eapply get_raises, H2.
Qed.

Lemma outcome_row_ok_dict o r : outcome_row o = Ok r -> is_dict o.
Proof.
  unfold outcome_row. destruct (Py.get "name" o) eqn:H1; simpl; [|congruence].
  intros _. eapply get_ok_dict, H1.
Qed.

Lemma outcomes_of_raises m x : outcomes_of m = Raise x -> x <> KeyError.
Proof.
  unfold outcomes_of.
  destruct (Py.get_default "odds" (JDict []) m) eqn:H1; simpl.
  - apply get_default_raises.
  - intros [= <-]. eapply get_default_raises, H1.
Qed.

Lemma event_key_of_raises t x : event_key_of t = Raise x -> x <> KeyError.
Proof.
  unfold event_key_of. destruct (Py.get "key" t) eqn:H1; simpl.
  - destruct a; congruence.
  - intros [= <-]. eapply get_raises, H1.
Qed.

Lemma in_range_raises i v x : in_range i v = Raise x -> x <> KeyError.
Proof.
  unfold in_range. destruct (0 <=? i); [|congruence].
  destruct (Py.len v) eqn:H1; simpl; [congruence|].
  intros [= <-]. eapply len_raises, H1.
Qed.

Lemma getitem_list_raises l i x : Py.getitem (JList l) i = Raise x -> x <> KeyError.
Proof. simpl. destruct (l !! Z.to_nat i); congruence. Qed.

Lemma commit_bet_raises u b ev s m c d x :
  Db.commit_bet u b ev s m c d = Raise x -> x <> KeyError.
Proof.
  unfold Db.commit_bet.
  destruct s, m; simpl; repeat case_match; congruence.
Qed.

Lemma add_user_raises n b c d x : Db.add_user n b c d = Raise x -> x <> KeyError.
Proof. unfold Db.add_user. destruct (existsb _ _); congruence. Qed.

Lemma gateway_answer_raises r x : gateway_answer r = Raise x -> x <> KeyError.
Proof. destruct r; simpl; congruence. Qed.

Lemma subscript_has_key k d x : has_key k d = true -> subscript k d = Raise x -> False.
Proof. unfold has_key, subscript. destruct (Py.assoc k d); congruence. Qed.

#[local] Hint Resolve get_default_raises get_raises iter_raises len_raises
  int_raises_no_key_error only_active_raises active_tournaments_raises
  formatted_time_raises_no_key_error match_row_raises outcome_row_raises
  outcomes_of_raises event_key_of_raises in_range_raises getitem_list_raises
  commit_bet_raises add_user_raises gateway_answer_raises : raises.

Lemma for_each_match_row_raises l x : for_each match_row l = Raise x -> x <> KeyError.
Proof. apply for_each_raises. eauto with raises. Qed.

Lemma for_each_outcome_row_raises l x : for_each outcome_row l = Raise x -> x <> KeyError.
Proof. apply for_each_raises. eauto with raises. Qed.

Lemma for_each_title_raises l x : for_each (Py.get "title") l = Raise x -> x <> KeyError.
Proof. apply for_each_raises. eauto with raises. Qed.

#[local] Hint Resolve for_each_match_row_raises for_each_outcome_row_raises
  for_each_title_raises : raises.

Lemma unhandled_other (x : exn) :
  x <> KeyError -> @Over unit (Unhandled x) <> Over (Unhandled KeyError).
Proof. congruence. Qed.

(** A subscript raises [KeyError] on a dict only. *)
Lemma getitem_key_error v i : Py.getitem v i = Raise KeyError -> is_dict v.
Proof.
  destruct v; simpl; try congruence; try exact (fun _ => I).
  - destruct (Py.chars s !! Z.to_nat i); congruence.
  - destruct (l !! Z.to_nat i); congruence.
Qed.

Ltac footprint_shape :=
  simpl;
  first [ apply footprint_refl
        | apply footprint_sent; [discriminate |]
        | apply footprint_state ];
  try (left; reflexivity);
  try (right; left; first [reflexivity | apply delete_insert_eq]).

Ltac no_key_error :=
  first [ discriminate
        | apply unhandled_other; eauto with raises ].

Ltac stored := right; right; eexists; split; [simpl | reflexivity].

Lemma on_select_sport_footprint lists e n msg w w' r :
  on_select_sport e n msg w = (w', r) ->
  footprint lists (sports_list e) n w w' /\ r <> Over (Unhandled KeyError).
Proof.
  unfold on_select_sport. intros H. hcases.
  all: match goal with
       | H : negb _ && has_key _ _ = true |- _ => apply andb_prop in H as [_ ?]
       | _ => idtac
       end.
  all: split; [footprint_shape; try (stored; assumption) | try no_key_error].
  exfalso. eauto using subscript_has_key.
Qed.

(** What is stored as the matches is what the gateway answered, and it is
    not empty. *)
Lemma fetched_entry (lists : Prop) e catalog sport title key matches :
  (lists -> answers_lists e) ->
  gateway_answer (fetch_matches e key) = Ok matches ->
  negb (Py.truthy matches) = false ->
  wf_entry lists catalog (select_match sport title matches).
Proof.
  intros Hl Hf Ht. apply negb_false_iff in Ht. split; [exact Ht|].
  intros HL. destruct (fetch_matches e key) as [v|] eqn:E; [|discriminate].
  injection Hf as ->. destruct (Hl HL key matches E) as [l ->].
  exists l. split; [reflexivity|]. intros ->. discriminate.
Qed.

Lemma on_select_tournament_footprint (lists : Prop) e n msg sport w w' r :
  (lists -> answers_lists e) ->
  has_key sport (sports_list e) = true ->
  on_select_tournament e n msg sport w = (w', r) ->
  footprint lists (sports_list e) n w w' /\ r <> Over (Unhandled KeyError).
Proof.
  unfold on_select_tournament. intros Hl Hk H. hcases.
  all: split; [footprint_shape; try (stored; eapply fetched_entry; eassumption)
              | try no_key_error].
  exfalso. eauto using subscript_has_key.
Qed.

Lemma for_each_outcome_row_dicts l rows :
  for_each outcome_row l = Ok rows -> Forall is_dict l.
Proof.
  revert rows. induction l as [|o l IH]; simpl; intros rows; [constructor|].
  destruct (outcome_row o) eqn:Ho; simpl; [|congruence].
  destruct (for_each outcome_row l) eqn:Hl; simpl; [|congruence].
  intros _. constructor; [eapply outcome_row_ok_dict, Ho | eapply IH; reflexivity].
Qed.

(** Outcomes that are not empty and whose lines could all be written are a
    list of dicts. *)
Lemma listed_outcomes outcomes items rows :
  Py.truthy outcomes = true -> Py.iter outcomes = Ok items ->
  for_each outcome_row items = Ok rows ->
  outcomes = JList items /\ items <> [] /\ Forall is_dict items.
Proof.
  intros Ht Hi Hr. pose proof (for_each_outcome_row_dicts _ _ Hr) as Hd.
  destruct outcomes; simpl in *; try discriminate.
  - destruct s as [|c s]; [discriminate|]. injection Hi as <-.
    simpl in Hd. inversion Hd as [|? ? Hc _]. destruct Hc.
  - injection Hi as <-. destruct l; [discriminate|]. repeat split; [congruence | exact Hd].
  - injection Hi as <-. destruct kv as [|[k v] kv]; [discriminate|].
    simpl in Hd. inversion Hd as [|? ? Hc _]. destruct Hc.
Qed.

(** In [select_match] the only [KeyError] is that of a subscript into
    matches that are a dict. *)
Lemma on_select_match_footprint lists catalog n msg sport tournament matches w w' r :
  on_select_match n msg sport tournament matches w = (w', r) ->
  footprint lists catalog n w w'
  /\ (r = Over (Unhandled KeyError) -> is_dict matches).
Proof.
  unfold on_select_match. intros H. hcases.
  all: split; [footprint_shape | try (intros [=]; fail)].
  all: try match goal with
       | H : Py.getitem _ _ = Raise _ |- _ =>
           intros [= ->]; exact (getitem_key_error _ _ H)
       end.
  all: try (intros Hk; exfalso; revert Hk; no_key_error).
  stored.
  match goal with
  | Ht : negb (Py.truthy ?o) = false, Hi : Py.iter ?o = Ok ?items,
    Hr : for_each outcome_row ?items = Ok _ |- _ =>
      apply negb_false_iff in Ht;
      destruct (listed_outcomes _ _ _ Ht Hi Hr) as (-> & Hne & Hd);
      exists items; auto
  end.
Qed.

Lemma find_user_set_balance_some m uid balance us bs bs' :
  is_Some (Db.find_user m (mkDatabase us bs)) ->
  is_Some (Db.find_user m (mkDatabase (Db.set_balance uid balance us) bs')).
Proof.
  unfold Db.find_user. simpl. induction us as [|a us IH]; simpl; [auto|].
  destruct (String.eqb (whatsapp_number a) m) eqn:E.
  - intros _. destruct (user_id a =? uid); simpl; rewrite E; eauto.
  - intros H. destruct (user_id a =? uid); simpl; rewrite E; auto.
Qed.

(** A commit that goes through writes the new balance and one row. *)
Lemma commit_bet_ok u b ev s m c d d' :
  Db.commit_bet u b ev s m c d = Ok d' ->
  d' = mkDatabase (Db.set_balance (user_id u) b (users d))
         (bets d ++ [mkBet (Db.next_id (map bet_id (bets d))) (user_id u)
                       (Db.cell_of s) ev (Db.cell_of m) "placed" c])
  /\ s <> JNull.
Proof.
  unfold Db.commit_bet.
  destruct (Db.bind_error s); [congruence|].
  destruct (Db.bind_error m); [congruence|].
  destruct s; intros [= <-]; split; (reflexivity || congruence).
Qed.

Lemma commit_bet_keeps_users u b ev s mid c d d' m :
  Db.commit_bet u b ev s mid c d = Ok d' ->
  is_Some (Db.find_user m d) -> is_Some (Db.find_user m d').
Proof.
  intros H. apply commit_bet_ok in H as [-> _]. destruct d as [us bs].
  apply find_user_set_balance_some.
Qed.

Lemma footprint_committed lists catalog n w d' r :
  (forall m, is_Some (Db.find_user m (db w)) -> is_Some (Db.find_user m d')) ->
  r <> NoMatchSelected ->
  footprint lists catalog n w (mkWorld (delete n (user_state w)) d' (outbox w ++ [(n, r)])).
Proof.
  intros Hd Hr. repeat split; simpl.
  - intros m Hm. apply lookup_delete_ne. congruence.
  - intros en Hen. rewrite lookup_delete_eq in Hen. discriminate.
  - exact Hd.
  - exists [(n, r)]. split; [reflexivity|]. repeat constructor. exact Hr.
Qed.

Lemma on_place_bet_footprint lists lists' catalog n msg u sport tournament m w w' r :
  wf_entry lists catalog (place_bet sport tournament m) ->
  on_place_bet n msg u m w = (w', r) ->
  footprint lists' catalog n w w' /\ r <> Over (Unhandled KeyError).
Proof.
  intros (items & Hout & Hne & Hd).
  assert (Ht : Py.truthy m = true).
  { destruct m; try discriminate.
    apply (outcomes_nonempty_truthy kv items JNull Hout). right. exact Hne. }
  unfold on_place_bet. intros H. rewrite Ht, Hout in H. hcases.
  all: try (split; [footprint_shape | try no_key_error]).
  split; [|discriminate]. simpl. apply footprint_committed; [|discriminate].
  intros m0. eapply commit_bet_keeps_users. eassumption.
Qed.

Lemma on_idle_footprint lists e n msg u w w' r :
  on_idle e n msg u w = (w', r) ->
  footprint lists (sports_list e) n w w' /\ r <> Over (Unhandled KeyError).
Proof.
  unfold on_idle. intros H. hcases.
  all: split; [footprint_shape; try (stored; exact I) | try no_key_error].
Qed.

Lemma dispatch_footprint (lists lists' : Prop) e n msg u st w w' r :
  (lists' -> answers_lists e) ->
  (forall en, st = Some en -> wf_entry lists (sports_list e) en) ->
  dispatch e n msg u st w = (w', r) ->
  footprint lists' (sports_list e) n w w'
  /\ (r = Over (Unhandled KeyError) -> holds_object st).
Proof.
  intros Hl Hwf. unfold dispatch.
  destruct st as [[| sport | sport tournament matches | sport tournament m]|]; intros H.
  - apply (on_select_sport_footprint lists') in H as [F Hr]. split; [exact F | congruence].
  - apply (on_select_tournament_footprint lists') in H as [F Hr];
      [split; [exact F | congruence] | exact Hl | exact (Hwf _ eq_refl)].
  - apply (on_select_match_footprint lists' (sports_list e)) in H as [F Hr].
    split; [exact F|]. intros Hk. specialize (Hr Hk).
    destruct matches; try destruct Hr. exists sport, tournament, kv. reflexivity.
  - eapply (on_place_bet_footprint lists lists') in H as [F Hr];
      [split; [exact F | congruence] | exact (Hwf _ eq_refl)].
  - apply (on_idle_footprint lists') in H as [F Hr]. split; [exact F | congruence].
Qed.

Lemma load_user_footprint lists e n w w1 r :
  load_user e n w = (w1, r) ->
  footprint lists (sports_list e) n w w1 /\ r <> Over (Unhandled KeyError).
Proof.
  destruct (load_user_cases e n w)
    as [(u & Hf & ->) | [(u & Hf & Ha & ->) | (Hf & ->)]]; intros [= <- <-].
  - split; [apply footprint_refl | discriminate].
  - split; [|discriminate]. repeat split; simpl; auto.
    + intros m [x Hx]. exists x. apply find_user_app_old. exact Hx.
    + exists [(n, Welcome)]. split; [reflexivity|]. repeat constructor. discriminate.
  - split; [apply footprint_refl | discriminate].
Qed.

Lemma process_footprint (lists lists' : Prop) e n msg w w' r :
  (lists' -> answers_lists e) ->
  wf_world lists (sports_list e) w -> process e n msg w = (w', r) ->
  footprint lists' (sports_list e) n w w'
  /\ (r = Over (Unhandled KeyError) -> holds_object (user_state w !! n))
  /\ (forall en, user_state w' !! n = Some en -> is_Some (Db.find_user n (db w'))).
Proof.
  intros Hl Hwf H.
  destruct (user_state w !! n) as [en|] eqn:Hst.
  - destruct (String.eqb_spec msg "exit") as [->|Hne].
    + rewrite (process_exit e n w en Hst) in H. injection H as <- <-.
      split; [apply footprint_sent; [discriminate | auto]|].
      split; [discriminate|]. simpl. intros en'. rewrite lookup_delete_eq. discriminate.
    + rewrite process_dispatch in H by (left; exact Hne).
      destruct (load_user e n w) as [w1 [u|o]] eqn:L.
      * destruct (load_user_footprint lists' e n w w1 _ L) as [F1 _].
        rewrite Hst in H.
        destruct (dispatch_footprint lists lists' e n msg u (Some en) w1 w' r) as [F2 Hr]; auto.
        { intros en' [= <-]. apply (Hwf n en Hst). }
        split; [eapply footprint_trans; eassumption|]. split; [exact Hr|].
        intros _ _. destruct F2 as (_ & _ & F2 & _). apply F2.
        rewrite (load_user_found e n w w1 u L). eauto.
      * injection H as <- <-. destruct (load_user_footprint lists' e n w w1 _ L) as [F1 Hr].
        split; [exact F1|]. split; [congruence|].
        intros en' Hen'. destruct F1 as (_ & _ & F1 & _). apply F1.
        apply (Hwf n en Hst).
  - rewrite process_dispatch in H by (right; exact Hst).
    destruct (load_user e n w) as [w1 [u|o]] eqn:L.
    + destruct (load_user_footprint lists' e n w w1 _ L) as [F1 _].
      rewrite Hst in H.
      destruct (dispatch_footprint lists lists' e n msg u None w1 w' r) as [F2 Hr]; auto.
      { intros en' [=]. }
      split; [eapply footprint_trans; eassumption|]. split; [exact Hr|].
      intros _ _. destruct F2 as (_ & _ & F2 & _). apply F2.
      rewrite (load_user_found e n w w1 u L). eauto.
    + injection H as <- <-. destruct (load_user_footprint lists' e n w w1 _ L) as [F1 Hr].
      split; [exact F1|]. split; [congruence|].
      intros en' Hen'. rewrite (load_user_state e n w w1 _ L), Hst in Hen'. discriminate.
Qed.

Lemma wf_world_footprint lists catalog n w w' :
  wf_world lists catalog w -> footprint lists catalog n w w' ->
  (forall en, user_state w' !! n = Some en -> is_Some (Db.find_user n (db w'))) ->
  wf_world lists catalog w'.
Proof.
  intros Hwf (A & B & C & _) Hn m en Hen.
  destruct (String.eqb_spec m n) as [->|Hne].
  - split; [|eauto]. destruct (B en Hen) as [Hold|Hnew]; [|exact Hnew].
    apply (Hwf n en Hold).
  - rewrite A in Hen by exact Hne. destruct (Hwf m en Hen) as [H1 H2]. auto.
Qed.

(** One call keeps the entries well-formed and sends no "no match selected"
    text; it ends in [KeyError] only for a sender whose stored matches are
    a dict. *)
Lemma receive_message_footprint (lists : Prop) e req w :
  (lists -> answers_lists e) ->
  wf_world lists (sports_list e) w ->
  footprint lists (sports_list e) (from_number_of req) w (fst (receive_message e req w))
  /\ wf_world lists (sports_list e) (fst (receive_message e req w))
  /\ (snd (receive_message e req w) = Unhandled KeyError ->
      holds_object (user_state w !! from_number_of req)).
Proof.
  intros Hl Hwf. unfold receive_message, receive_message_body.
  destruct (x_twilio_signature req) as [accepted|].
  2: { simpl. split; [apply footprint_refl|]. split; [exact Hwf | discriminate]. }
  destruct (negb accepted).
  { simpl. split; [apply footprint_refl|]. split; [exact Hwf | discriminate]. }
  destruct (String.eqb (from_number_of req) "").
  { simpl. split; [apply footprint_refl|]. split; [exact Hwf | discriminate]. }
  destruct (process e (from_number_of req) (incoming_msg_of req) w) as [w' r] eqn:H.
  destruct (process_footprint lists lists e _ _ w w' r Hl Hwf H) as (F & Hr & Hn).
  assert (Hw' : fst (finish (w', r)) = w') by (destruct r; reflexivity).
  rewrite Hw'. split; [exact F|]. split.
  - eapply wf_world_footprint; eassumption.
  - destruct r as [[]|o]; simpl; [discriminate|]. intros ->. apply Hr. reflexivity.
Qed.

Lemma reachable_invariant gateway catalog w :
  reachable gateway catalog w ->
  wf_world (forall e, gateway e -> answers_lists e) catalog w
  /\ Forall (fun x => snd x <> NoMatchSelected) (outbox w).
Proof.
  induction 1 as [d | e req w Hreach [IHwf IHout] Hcat Hg].
  - split; [|constructor]. intros n en. simpl. rewrite lookup_empty. discriminate.
  - subst catalog.
    destruct (receive_message_footprint _ e req w (fun H => H e Hg) IHwf)
      as ((_ & _ & _ & new & Hnew & Hout) & Hwf & _).
    split; [exact Hwf|]. rewrite Hnew. apply Forall_app. split; assumption.
Qed.

(** C10, amended.  In every world the process can reach, each entry of
    [user_state] is well-formed for its tag: the sport of a
    [select_tournament] entry is a key of the catalog, a [select_match]
    entry holds what was fetched, which is not empty and is a list if the
    gateway answers with lists, and the match of a [place_bet] entry has a
    non-empty list of outcomes.  So the "no match selected" text of line 366
    is never sent, and the lookup of the sport in the catalog never fails:
    a call ends in [KeyError] only when the stored matches of its sender are
    a dict. *)
Theorem state_entries_well_formed (gateway : env -> Prop)
    (catalog : list (string * json)) (w : world) :
  reachable gateway catalog w ->
  (forall n en, user_state w !! n = Some en ->
     wf_entry (forall e, gateway e -> answers_lists e) catalog en)
  /\ (forall n, (n, NoMatchSelected) ∉ outbox w)
  /\ (forall e req, sports_list e = catalog ->
        (snd (receive_message e req w) = Unhandled KeyError ->
         exists sport tournament kv,
           user_state w !! from_number_of req
           = Some (select_match sport tournament (JDict kv)))
        /\ forall n, (n, NoMatchSelected) ∉ outbox (fst (receive_message e req w))).
Proof.
  intros Hreach.
  destruct (reachable_invariant gateway catalog w Hreach) as [Hwf Hout].
  split; [intros n en Hen; apply (Hwf n en Hen)|].
  split.
  - intros n Hin. rewrite Forall_forall in Hout. apply (Hout _ Hin). reflexivity.
  - intros e req Hcat. subst catalog.
    assert (Hwf' : wf_world False (sports_list e) w)
      by (eapply wf_world_weaken; [|exact Hwf]; intros []).
    destruct (receive_message_footprint False e req w ltac:(intros []) Hwf')
      as ((_ & _ & _ & new & Hnew & Hnone) & _ & Hk).
    split; [exact Hk|].
    intros n Hin. rewrite Hnew in Hin. apply elem_of_app in Hin as [Hin|Hin].
    + rewrite Forall_forall in Hout. apply (Hout _ Hin). reflexivity.
    + rewrite Forall_forall in Hnone. apply (Hnone _ Hin). reflexivity.
Qed.

(** After "start", "soccer" and "1" against a gateway that answers with
    lists, the sender is in [select_match] with a non-empty list. *)
Lemma state_entries_well_formed_witness :
  let w0 := mkWorld ∅ (mkDatabase [Sample.account 500] []) [] in
  let w1 := fst (receive_message Sample.environment (Sample.message "start") w0) in
  let w2 := fst (receive_message Sample.environment (Sample.message "soccer") w1) in
  let w3 := fst (receive_message Sample.environment (Sample.message "1") w2) in
  reachable answers_lists Sample.catalog w3
  /\ user_state w3 !! Sample.number
     = Some (select_match "Soccer" (JStr "EPL") (JList [JDict Sample.game]))
  /\ wf_entry (forall e, answers_lists e -> answers_lists e) Sample.catalog
       (select_match "Soccer" (JStr "EPL") (JList [JDict Sample.game])).
Proof.
  intros w0 w1 w2 w3.
  assert (Hg : answers_lists Sample.environment).
  { intros k v [= <-]. eexists. reflexivity. }
  assert (Hreach : reachable answers_lists Sample.catalog w3).
  { repeat (apply reach_call; [|reflexivity | exact Hg]). apply reach_start. }
  assert (Hst : user_state w3 !! Sample.number
                = Some (select_match "Soccer" (JStr "EPL") (JList [JDict Sample.game])))
    by (vm_compute; reflexivity).
  split; [exact Hreach|]. split; [exact Hst|].
  exact (proj1 (state_entries_well_formed answers_lists Sample.catalog w3 Hreach) _ _ Hst).
Defined.

(** C10 as stated fails when the gateway answers with an object: the object
    is stored as the matches of a [select_match] entry (the call that
    stores it ends in [AttributeError] while it lists the matches), and the
    next index ends in the [KeyError] of [matches[0]]. *)
Lemma object_stored_as_matches :
  let e := mkEnv Sample.catalog (fun _ => Some (JDict [("message", JStr "quota exceeded")]))
             "" in
  let stored := select_match "Soccer" (JStr "EPL")
                  (JDict [("message", JStr "quota exceeded")]) in
  let w0 := mkWorld ∅ (mkDatabase [Sample.account 500] []) [] in
  let w1 := fst (receive_message e (Sample.message "start") w0) in
  let w2 := fst (receive_message e (Sample.message "soccer") w1) in
  reachable any_gateway Sample.catalog w2
  /\ user_state w2 !! Sample.number = Some (select_tournament "Soccer")
  /\ receive_message e (Sample.message "1") w2
     = (mkWorld {[ Sample.number := stored ]} (db w2) (outbox w2), Unhandled AttributeError)
  /\ receive_message e (Sample.message "1")
       (mkWorld {[ Sample.number := stored ]} (db w2) (outbox w2))
     = (mkWorld {[ Sample.number := stored ]} (db w2) (outbox w2), Unhandled KeyError).
Proof.
  intros e stored w0 w1 w2.
  split; [repeat (apply reach_call; [|reflexivity | exact I]); apply reach_start|].
  repeat split; vm_compute; reflexivity.
Qed.

(** ** First contact *)





(** When the generated code is already the code of an account, the insert
    is refused and the call ends there. *)
Lemma first_contact_code_taken (e : env) (req : request) (w : world) (u : User) :
  authenticated req -> user_state w !! from_number_of req = None ->
  Db.find_user (from_number_of req) (db w) = None ->
  u ∈ users (db w) ->
  referral_code u = PyStr.upper (PyStr.before_hyphen (uuid4 e)) ->
  receive_message e req w = (w, Unhandled IntegrityError).
Proof.
  intros Ha Hst Hf Hin Hcode.
  rewrite (receive_message_authenticated e req w Ha).
  rewrite process_dispatch by (right; exact Hst).
  unfold load_user. hstep. rewrite Hf. unfold Db.add_user.
  assert (E : existsb (fun u0 => String.eqb (whatsapp_number u0) (from_number_of req)
                         || String.eqb (referral_code u0)
                              (PyStr.upper (PyStr.before_hyphen (uuid4 e))))
                (users (db w)) = true).
  { apply existsb_exists. exists u. split; [apply list_elem_of_In; exact Hin|].
    rewrite Hcode, String.eqb_refl. apply orb_true_r. }
  rewrite E. reflexivity.
Qed.


(** ** Kick-off times *)

(** A kick-off time that is a text never makes the formatting step raise:
    it is rendered, or given back as it is. *)
Lemma formatted_time_text s :
  Kickoff.formatted_time (JStr s)
  = Ok (JStr (match Kickoff.strptime s with
              | Ok dt => Kickoff.strftime dt
              | Raise _ => s
              end)).
Proof.
  simpl. destruct (Kickoff.strptime s) eqn:H; [reflexivity|].
  apply strptime_raises in H. subst. reflexivity.
Qed.

(** A kick-off time that is not a text makes it raise [TypeError]. *)
Lemma formatted_time_not_text v :
  (forall s, v <> JStr s) -> Kickoff.formatted_time v = Raise TypeError.
Proof. intros H. destruct v; try reflexivity. destruct (H s). reflexivity. Qed.

(** C7 fails on a match without a kick-off time: [get] gives [None],
    [strptime] raises [TypeError], the [except ValueError] clause does not
    catch it, and the call ends in that exception with no reply; the same
    happens while listing the matches of a tournament, after the entry
    [select_match] has been stored. *)
Theorem kickoff_time_missing_raises :
  let m := JDict Sample.game_without_time in
  let en := select_match "Soccer" (JStr "EPL") (JList [m]) in
  let w := Sample.world_in (Some en) 500 in
  let e := mkEnv Sample.catalog (fun _ => Some (JList [m])) "" in
  let w0 := Sample.world_in (Some (select_tournament "Soccer")) 500 in
  Py.get "commence_time" m = Ok JNull
  /\ Kickoff.formatted_time JNull = Raise TypeError
  /\ receive_message Sample.environment (Sample.message "1") w = (w, Unhandled TypeError)
  /\ receive_message e (Sample.message "1") w0
     = (mkWorld {[ Sample.number := en ]} (db w0) [], Unhandled TypeError).
Proof.
  intros m en w e w0. repeat split; vm_compute; reflexivity.
Qed.

Module KickoffFacts.
Import Kickoff.

Lemma andthen_single {A B} (p : matcher A) (k : A -> matcher B) l a r :
  p l = [(a, r)] -> andthen p k l = k a r.
Proof. intros H. unfold andthen. rewrite H. simpl. apply app_nil_r. Qed.

Lemma digit_any k r : (k < 10)%nat -> digit 0 9 (PyStr.digit_char k :: r) = [(k, r)].
Proof. intros H. do 10 (destruct k as [|k]; [reflexivity|]). lia. Qed.

Lemma tens_single (p q : matcher nat) l a r b r' :
  p l = [(a, r)] -> q r = [(b, r')] -> tens p q l = [(10 * a + b, r')]%nat.
Proof. intros Hp Hq. unfold tens. rewrite Hp. simpl. rewrite Hq. reflexivity. Qed.

Lemma year_field y r :
  Z.of_nat y < 10000 ->
  dY (list_ascii_of_string (pad4 y) ++ r)%list = [(y, r)].
Proof.
  intros H. unfold dY, pad4, pad2. simpl.
  assert (Hd : forall n, (n mod 10 < 10)%nat) by (intros n; apply Nat.mod_upper_bound; lia).
  rewrite (tens_single _ _ _ (10 * (10 * (y / 1000 mod 10) + y / 100 mod 10) + y / 10 mod 10)%nat
             (PyStr.digit_char (y mod 10) :: r) (y mod 10)%nat r).
  - f_equal. f_equal. clear Hd. zify. Z.to_euclidean_division_equations. lia.
  - apply tens_single with (r := (PyStr.digit_char (y / 10 mod 10) :: PyStr.digit_char (y mod 10) :: r)).
    + apply tens_single with (r := (PyStr.digit_char (y / 100 mod 10) :: PyStr.digit_char (y / 10 mod 10) :: PyStr.digit_char (y mod 10) :: r)).
      * apply digit_any, Hd.
      * apply digit_any, Hd.
    + apply digit_any, Hd.
  - apply digit_any, Hd.
Qed.

Ltac field_case :=
  vm_compute; repeat (refine (eq_trans (app_nil_r _) _)); reflexivity.

Lemma month_field m {B} (k : nat -> matcher B) r :
  (1 <= m <= 12)%nat ->
  andthen dm (fun v => andthen (lit "-") (fun _ => k v))
    (list_ascii_of_string (pad2 m) ++ "-"%char :: r)%list = k m r.
Proof.
  intros H. destruct m as [|m]; [lia|].
  do 12 (destruct m as [|m]; [field_case|]). lia.
Qed.

Lemma day_field d {B} (k : nat -> matcher B) r :
  (1 <= d <= 31)%nat ->
  andthen dd (fun v => andthen (lit "T") (fun _ => k v))
    (list_ascii_of_string (pad2 d) ++ "T"%char :: r)%list = k d r.
Proof.
  intros H. destruct d as [|d]; [lia|].
  do 31 (destruct d as [|d]; [field_case|]). lia.
Qed.

Lemma hour_field h {B} (k : nat -> matcher B) r :
  (h <= 23)%nat ->
  andthen dH (fun v => andthen (lit ":") (fun _ => k v))
    (list_ascii_of_string (pad2 h) ++ ":"%char :: r)%list = k h r.
Proof.
  intros H. do 24 (destruct h as [|h]; [field_case|]). lia.
Qed.

Lemma minute_field mi {B} (k : nat -> matcher B) r :
  (mi <= 59)%nat ->
  andthen dM (fun v => andthen (lit ":") (fun _ => k v))
    (list_ascii_of_string (pad2 mi) ++ ":"%char :: r)%list = k mi r.
Proof.
  intros H. do 60 (destruct mi as [|mi]; [field_case|]). lia.
Qed.

Lemma second_field s {B} (k : nat -> matcher B) r :
  (s <= 59)%nat ->
  andthen dS (fun v => andthen (lit "Z") (fun _ => k v))
    (list_ascii_of_string (pad2 s) ++ "Z"%char :: r)%list = k s r.
Proof.
  intros H. do 60 (destruct s as [|s]; [field_case|]). lia.
Qed.

Lemma lit_hyphen r : lit "-" ("-"%char :: r) = [(tt, r)].
Proof. reflexivity. Qed.

Lemma days_in_month_le y m : (days_in_month y m <= 31)%nat.
Proof.
  unfold days_in_month.
  do 12 (destruct m as [|m]; [try destruct (is_leap y); lia|]). lia.
Qed.

Lemma chars_app (s t : string) :
  list_ascii_of_string (s ++ t) = (list_ascii_of_string s ++ list_ascii_of_string t)%list.
Proof. induction s as [|c s IH]; [reflexivity|]. rewrite append_cons. simpl. rewrite IH. reflexivity. Qed.

(** A timestamp written YYYY-MM-DDTHH:MM:SSZ that names a real instant is
    read back as that instant. *)
Lemma strptime_iso_text dt :
  valid dt = true -> Z.of_nat (year dt) < 10000 ->
  strptime (iso_text dt) = Ok dt.
Proof.
  intros Hv Hy. unfold valid in Hv.
  repeat (apply andb_prop in Hv as [Hv ?]).
  repeat match goal with H : (_ <=? _)%nat = true |- _ => apply Nat.leb_le in H end.
  pose proof (days_in_month_le (year dt) (month dt)).
  unfold strptime, iso_text. rewrite !chars_app.
  unfold iso_format.
  rewrite (andthen_single dY _ _ (year dt) _ (year_field _ _ Hy)).
  change (list_ascii_of_string "-") with ["-"%char].
  change (list_ascii_of_string "T") with ["T"%char].
  change (list_ascii_of_string ":") with [":"%char].
  change (list_ascii_of_string "Z") with ["Z"%char].
  cbn [app].
  rewrite (andthen_single (lit "-") _ _ tt _ (lit_hyphen _)).
  rewrite month_field by lia. rewrite day_field by lia.
  rewrite hour_field by lia. rewrite minute_field by lia.
  rewrite second_field by lia.
  unfold yield.
  assert (Hvalid : valid dt = true).
  { unfold valid. repeat (apply andb_true_intro; split); apply Nat.leb_le; assumption. }
  destruct dt; simpl in *. rewrite Hvalid. reflexivity.
Qed.

(** Such a timestamp is rendered with the month by name, the day and the
    year, and the hour and minute. *)
Lemma formatted_time_iso_text dt :
  valid dt = true -> Z.of_nat (year dt) < 10000 ->
  formatted_time (JStr (iso_text dt))
  = Ok (JStr (month_name (month dt) ++ " " ++ pad2 (day dt) ++ ", "
              ++ PyStr.str_of_nat (year dt)
              ++ " at " ++ pad2 (hour dt) ++ ":" ++ pad2 (minute dt) ++ " UTC")).
Proof.
  intros Hv Hy. unfold formatted_time. rewrite (strptime_iso_text dt Hv Hy). reflexivity.
Qed.

End KickoffFacts.

Example kickoff_rendered :
  Kickoff.formatted_time (JStr "2024-01-05T13:30:00Z")
  = Ok (JStr "January 05, 2024 at 13:30 UTC").
Proof. reflexivity. Qed.

Example kickoff_echoed :
  Kickoff.formatted_time (JStr "tomorrow evening") = Ok (JStr "tomorrow evening").
Proof. reflexivity. Qed.

(** ** The same bet sent twice, one call after the other *)

(** After a bet is placed the sender is idle, so the same message sent again
    is answered by the help text: the balance and the ledger stay. *)
Lemma bet_sent_again_is_turned_down (e : env) (req : request) (w w' : world) (u : User)
    (d : string) :
  authenticated req -> incoming_msg_of req = "bet " ++ d ->
  user_state w' !! from_number_of req = None ->
  Db.find_user (from_number_of req) (db w') = Some u ->
  receive_message e req w' = (sent (from_number_of req) InvalidCommand w', Response 200).
Proof.
  intros Ha Hmsg Hst Hu.
  rewrite (receive_message_known e req w' u _ Ha Hmsg (bet_message_not_exit d) Hu).
  rewrite Hst. unfold dispatch.
  rewrite on_idle_invalid by discriminate. reflexivity.
Qed.

(** * Further properties of the handler *)

(** ** The exceptions a call can end in *)

Lemma get_default_only k d v x : Py.get_default k d v = Raise x -> x = AttributeError.
Proof. destruct v; simpl; congruence. Qed.

Lemma get_only k v x : Py.get k v = Raise x -> x = AttributeError.
Proof. apply get_default_only. Qed.

Lemma iter_only v x : Py.iter v = Raise x -> x = TypeError.
Proof. destruct v; simpl; congruence. Qed.

Lemma len_only v x : Py.len v = Raise x -> x = TypeError.
Proof. destruct v; simpl; congruence. Qed.

Lemma for_each_only {A B} (f : A -> result B) (P : exn -> Prop) l x :
  (forall a y, f a = Raise y -> P y) -> for_each f l = Raise x -> P x.
Proof.
  intros Hf. induction l as [|a l IH]; simpl; [congruence|].
  destruct (f a) eqn:Ha; simpl; [|intros [= <-]; eauto].
  destruct (for_each f l); simpl; [congruence|]. intros [= <-]. auto.
Qed.

Lemma only_active_only l x : only_active l = Raise x -> x = AttributeError.
Proof.
  revert x. induction l as [|t l IH]; simpl; intros x; [congruence|].
  destruct (Py.get "active" t) eqn:Ha; simpl.
  - destruct (only_active l); simpl; [congruence|]. intros [= <-]. auto.
  - intros [= <-]. eapply get_only, Ha.
Qed.

Lemma active_tournaments_only v x :
  active_tournaments v = Raise x -> x = TypeError \/ x = AttributeError.
Proof.
  unfold active_tournaments. destruct (Py.iter v) eqn:Hi; simpl.
  - intros H. right. eapply only_active_only, H.
  - intros [= <-]. left. eapply iter_only, Hi.
Qed.

Lemma match_row_only m x : match_row m = Raise x -> x = TypeError \/ x = AttributeError.
Proof.
  unfold match_row.
  destruct (Py.get "commence_time" m) eqn:H1; simpl;
    [|intros [= <-]; right; eapply get_only, H1].
  destruct (Py.get "home_team" m) eqn:H2; simpl;
    [|intros [= <-]; right; eapply get_only, H2].
  destruct (Py.get "away_team" m) eqn:H3; simpl;
    [|intros [= <-]; right; eapply get_only, H3].
  destruct (Kickoff.formatted_time a) eqn:H4; simpl; [congruence|].
  intros [= <-]. left. eapply formatted_time_raises, H4.
Qed.

Lemma outcome_row_only o x : outcome_row o = Raise x -> x = AttributeError.
Proof.
  unfold outcome_row.
  destruct (Py.get "name" o) eqn:H1; simpl; [|intros [= <-]; eapply get_only, H1].
  destruct (Py.get "price" o) eqn:H2; simpl; [congruence|].
  intros [= <-]. eapply get_only, H2.
Qed.

Lemma outcomes_of_only m x : outcomes_of m = Raise x -> x = AttributeError.
Proof.
  unfold outcomes_of.
  destruct (Py.get_default "odds" (JDict []) m) eqn:H1; simpl.
  - apply get_default_only.
  - intros [= <-]. eapply get_default_only, H1.
Qed.

Lemma event_key_of_only t x : event_key_of t = Raise x -> x = AttributeError.
Proof.
  unfold event_key_of. destruct (Py.get "key" t) eqn:H1; simpl.
  - destruct a; congruence.
  - intros [= <-]. eapply get_only, H1.
Qed.

Lemma in_range_only i v x : in_range i v = Raise x -> x = TypeError.
Proof.
  unfold in_range. destruct (0 <=? i); [|congruence].
  destruct (Py.len v) eqn:H1; simpl; [congruence|].
  intros [= <-]. eapply len_only, H1.
Qed.

Lemma chars_length s : length (Py.chars s) = String.length s.
Proof. induction s; simpl; congruence. Qed.

(** An index that passed the range check finds its element; only a dict,
    which has no integer keys, still refuses it. *)
Lemma getitem_in_range v i x :
  in_range i v = Ok true -> Py.getitem v i = Raise x -> x = KeyError.
Proof.
  unfold in_range. destruct (Z.leb_spec 0 i) as [Hi|]; [|congruence].
  destruct v; simpl; try congruence.
  - intros [= H]. apply Z.ltb_lt in H.
    destruct (Py.chars s !! Z.to_nat i) eqn:E; [congruence|].
    apply lookup_ge_None in E. rewrite chars_length in E. lia.
  - intros [= H]. apply Z.ltb_lt in H.
    destruct (l !! Z.to_nat i) eqn:E; [congruence|].
    apply lookup_ge_None in E. lia.
Qed.

Lemma getitem_checked (l : list json) i x :
  (0 <=? i) && (i <? Z.of_nat (length l)) = true ->
  Py.getitem (JList l) i = Raise x -> False.
Proof.
  intros H. apply andb_prop in H as [H1 H2].
  apply Z.leb_le in H1. apply Z.ltb_lt in H2. simpl.
  destruct (l !! Z.to_nat i) eqn:E; [congruence|].
  apply lookup_ge_None in E. lia.
Qed.

Lemma bind_error_only v x :
  Db.bind_error v = Some x -> x = DBAPIError \/ x = OverflowError.
Proof. destruct v; simpl; try congruence; [case_match|..]; intros [= <-]; auto. Qed.

Lemma commit_bet_only u b ev s m c d x :
  Db.commit_bet u b ev s m c d = Raise x ->
  x = DBAPIError \/ x = OverflowError \/ x = IntegrityError.
Proof.
  unfold Db.commit_bet.
  destruct (Db.bind_error s) eqn:Hs.
  { intros [= <-]. apply bind_error_only in Hs as [->| ->]; auto. }
  destruct (Db.bind_error m) eqn:Hm.
  { intros [= <-]. apply bind_error_only in Hm as [->| ->]; auto. }
  destruct s; intros [= <-]; auto.
Qed.

Lemma gateway_answer_only r x : gateway_answer r = Raise x -> x = ValueError.
Proof. destruct r; simpl; congruence. Qed.

Lemma subscript_only k d x : subscript k d = Raise x -> x = KeyError.
Proof. unfold subscript. destruct (Py.assoc k d); congruence. Qed.

Ltac escape_kind :=
  match goal with
  | H : subscript _ _ = Raise _ |- _ =>
      first [ exfalso; eapply subscript_has_key; [|exact H]; eassumption
            | apply subscript_only in H ]
  | H : Py.getitem (JList _) _ = Raise _, G : (0 <=? _) && (_ <? _) = true |- _ =>
      exfalso; exact (getitem_checked _ _ _ G H)
  | H : Py.getitem ?v _ = Raise _, G : in_range _ ?v = Ok true |- _ =>
      let D := fresh "D" in
      pose proof H as D; apply (getitem_in_range _ _ _ G) in H; subst;
      apply getitem_key_error in D; destruct v; try destruct D
  | H : gateway_answer _ = Raise _ |- _ => apply gateway_answer_only in H
  | H : Py.int _ = Raise _ |- _ => apply int_raises in H
  | H : active_tournaments _ = Raise _ |- _ => apply active_tournaments_only in H as [H|H]
  | H : for_each match_row _ = Raise _ |- _ =>
      apply (for_each_only match_row (fun y => y = TypeError \/ y = AttributeError))
        in H as [H|H]; [| |apply match_row_only]
  | H : for_each outcome_row _ = Raise _ |- _ =>
      apply (for_each_only outcome_row (fun y => y = AttributeError)) in H;
      [|apply outcome_row_only]
  | H : for_each (Py.get _) _ = Raise _ |- _ =>
      apply (for_each_only _ (fun y => y = AttributeError)) in H; [|apply get_only]
  | H : event_key_of _ = Raise _ |- _ => apply event_key_of_only in H
  | H : outcomes_of _ = Raise _ |- _ => apply outcomes_of_only in H
  | H : Kickoff.formatted_time _ = Raise _ |- _ => apply formatted_time_raises in H
  | H : Py.iter _ = Raise _ |- _ => apply iter_only in H
  | H : in_range _ _ = Raise _ |- _ => apply in_range_only in H
  | H : Db.commit_bet _ _ _ _ _ _ _ = Raise _ |- _ =>
      apply commit_bet_only in H as [H|[H|H]]
  | H : Py.get _ _ = Raise _ |- _ => apply get_only in H
  end.

Lemma dispatch_escape e n msg u st w w' x :
  dispatch e n msg u st w = (w', Over (Unhandled x)) -> may_escape true st x = true.
Proof.
  intros H. unfold dispatch in H.
  destruct st as [[| sport | sport tournament matches | sport tournament m]|].
  all: unfold on_select_sport, on_select_tournament, on_select_match, on_place_bet,
         on_idle in H; hcases.
  all: repeat match goal with
       | H : negb _ && has_key _ _ = true |- _ => apply andb_prop in H as [_ ?]
       end.
  all: try (escape_kind; subst; try reflexivity; try discriminate).
Qed.

Lemma may_escape_unknown st x : may_escape true st x = true -> may_escape false st x = true.
Proof. destruct x; simpl; auto. Qed.

(** The exception a call ends in is the [TypeError] of a missing signature,
    or one the state of its sender allows. *)
Lemma receive_message_escape e req w x :
  snd (receive_message e req w) = Unhandled x ->
  match x_twilio_signature req with
  | None => x = TypeError
  | Some _ =>
      authenticated req
      /\ may_escape (known (from_number_of req) w)
           (user_state w !! from_number_of req) x = true
  end.
Proof.
  unfold receive_message, receive_message_body, authenticated, signature_valid.
  destruct (x_twilio_signature req) as [[|]|]; simpl;
    [|discriminate | intros [= <-]; reflexivity].
  destruct (String.eqb_spec (from_number_of req) "") as [|Hfrom]; [discriminate|].
  intros H. split; [split; [reflexivity | exact Hfrom]|]. revert H.
  set (n := from_number_of req). set (msg := incoming_msg_of req).
  destruct (user_state w !! n) as [en|] eqn:Hst.
  - destruct (String.eqb_spec msg "exit") as [->|Hne].
    + rewrite (process_exit e n w en Hst). discriminate.
    + rewrite process_dispatch by (left; exact Hne). rewrite Hst. unfold known.
      destruct (load_user_cases e n w)
        as [(u & Hf & ->) | [(u & Hf & _ & ->) | (Hf & ->)]]; rewrite Hf.
      * destruct (dispatch e n msg u (Some en) w) as [w' [[]|[]]] eqn:D;
          try discriminate. intros [= <-]. eapply dispatch_escape, D.
      * destruct (dispatch e n msg u (Some en) _) as [w' [[]|[]]] eqn:D;
          try discriminate. intros [= <-]. eapply may_escape_unknown, dispatch_escape, D.
      * intros [= <-]. reflexivity.
  - rewrite process_dispatch by (right; exact Hst). rewrite Hst. unfold known.
    destruct (load_user_cases e n w)
      as [(u & Hf & ->) | [(u & Hf & _ & ->) | (Hf & ->)]]; rewrite Hf.
    * destruct (dispatch e n msg u None w) as [w' [[]|[]]] eqn:D;
        try discriminate. intros [= <-]. eapply dispatch_escape, D.
    * destruct (dispatch e n msg u None _) as [w' [[]|[]]] eqn:D;
        try discriminate. intros [= <-]. eapply may_escape_unknown, dispatch_escape, D.
    * intros [= <-]. reflexivity.
Qed.

(** X1.  A call never ends in [IndexError]: every index the handler uses, into
    the tournaments, the matches or the outcomes, has passed its range check. *)
Theorem no_index_error (e : env) (req : request) (w : world) :
  snd (receive_message e req w) <> Unhandled IndexError.
Proof.
  intros H. apply receive_message_escape in H.
  destruct (x_twilio_signature req); [destruct H as [_ H]|]; discriminate.
Qed.



(** ** The replies of a call *)

Lemma dispatch_replies e n msg u st w w' r :
  dispatch e n msg u st w = (w', r) ->
  (exists x, r = Over (Unhandled x) /\ outbox w' = outbox w)
  \/ ((r = Next tt \/ r = Over (Response 200))
      /\ exists y, outbox w' = (outbox w ++ [(n, y)])%list).
Proof.
  intros H. unfold dispatch in H.
  destruct st as [[| sport | sport tournament matches | sport tournament m]|].
  all: unfold on_select_sport, on_select_tournament, on_select_match, on_place_bet,
         on_idle in H; hcases; simpl.
  all: first [ left; eexists; split; reflexivity
             | right; split; [auto | eexists; reflexivity] ].
Qed.


(** ** What a call does to the tables *)

Lemma dispatch_db e n msg u st w w' r :
  dispatch e n msg u st w = (w', r) ->
  db w' = db w
  \/ (betting st = true /\ bet_cost <= coins_balance u
      /\ user_state w' = delete n (user_state w)
      /\ exists ev sk mid,
           Db.commit_bet u (coins_balance u - bet_cost) ev sk mid bet_cost (db w)
           = Ok (db w')).
Proof.
  intros H. unfold dispatch in H.
  destruct st as [[| sport | sport tournament matches | sport tournament m]|].
  all: unfold on_select_sport, on_select_tournament, on_select_match, on_place_bet,
         on_idle in H; hcases; simpl; auto.
  right. split; [reflexivity|].
  split; [apply Z.leb_le; assumption|]. split; [reflexivity|]. eauto.
Qed.

Lemma add_user_ok n b c d d' u :
  Db.add_user n b c d = Ok (d', u) ->
  u = mkUser (Db.next_id (map user_id (users d))) n b c
  /\ d' = mkDatabase (users d ++ [u]) (bets d)
  /\ (forall v, v ∈ users d -> whatsapp_number v <> n /\ referral_code v <> c).
Proof.
  unfold Db.add_user. destruct (existsb _ _) eqn:E; [congruence|].
  intros [= <- <-]. split; [reflexivity|]. split; [reflexivity|].
  intros v Hv. apply list_elem_of_In in Hv.
  assert (Hn : (String.eqb (whatsapp_number v) n || String.eqb (referral_code v) c) = false).
  { destruct (String.eqb (whatsapp_number v) n || String.eqb (referral_code v) c) eqn:F;
      [|reflexivity].
    rewrite <- E. symmetry. apply existsb_exists. eauto. }
  apply orb_false_iff in Hn as [H1 H2].
  split; apply String.eqb_neq; assumption.
Qed.

(** The two writes of a call: the account of a new sender, then the bet. *)
Lemma receive_message_db e req w :
  let n := from_number_of req in
  let w' := fst (receive_message e req w) in
  exists d1,
    (d1 = db w
     \/ (known n w = false
         /\ exists u, Db.add_user n 500 (PyStr.upper (PyStr.before_hyphen (uuid4 e))) (db w)
                      = Ok (d1, u)))
    /\ (db w' = d1
        \/ exists u ev sk mid,
             Db.find_user n d1 = Some u
             /\ betting (user_state w !! n) = true
             /\ 10 <= coins_balance u
             /\ user_state w' !! n = None
             /\ Db.commit_bet u (coins_balance u - 10) ev sk mid 10 d1 = Ok (db w')).
Proof.
  intros n w'. unfold w', receive_message, receive_message_body.
  destruct (x_twilio_signature req) as [[|]|]; simpl;
    [|exists (db w); simpl; auto ..].
  destruct (String.eqb (from_number_of req) ""); [exists (db w); simpl; auto|].
  fold n. set (msg := incoming_msg_of req).
  assert (Hmain : msg <> "exit" \/ user_state w !! n = None ->
            exists d1,
              (d1 = db w
               \/ (known n w = false
                   /\ exists u, Db.add_user n 500
                                  (PyStr.upper (PyStr.before_hyphen (uuid4 e))) (db w)
                                = Ok (d1, u)))
              /\ (db (fst (finish (process e n msg w))) = d1
                  \/ exists u ev sk mid,
                       Db.find_user n d1 = Some u
                       /\ betting (user_state w !! n) = true
                       /\ 10 <= coins_balance u
                       /\ user_state (fst (finish (process e n msg w))) !! n = None
                       /\ Db.commit_bet u (coins_balance u - 10) ev sk mid 10 d1
                          = Ok (db (fst (finish (process e n msg w)))))).
  { intros Hskip. rewrite process_dispatch by exact Hskip.
    destruct (load_user e n w) as [w1 [u|o]] eqn:L.
    - exists (db w1). split.
      + destruct (load_user_cases e n w)
          as [(u0 & Hf & L0) | [(u0 & Hf & Hadd & L0) | (Hf & L0)]];
          rewrite L0 in L; simplify_eq; simpl; auto.
        right. split; [unfold known; rewrite Hf; reflexivity | eauto].
      + destruct (dispatch e n msg u (user_state w !! n) w1) as [w2 r] eqn:D.
        assert (Hw2 : fst (finish (w2, r)) = w2) by (destruct r; reflexivity).
        rewrite Hw2.
        destruct (dispatch_db e n msg u _ w1 w2 r D)
          as [Hsame | (Hb & Hbal & Hst & ev & sk & mid & Hc)]; [left; exact Hsame|].
        right. exists u, ev, sk, mid.
        split; [exact (load_user_found e n w w1 u L)|]. split; [exact Hb|].
        split; [exact Hbal|]. split; [rewrite Hst; apply lookup_delete_eq | exact Hc].
    - exists (db w). split; [auto|]. left.
      destruct (load_user_cases e n w)
        as [(u0 & Hf & L0) | [(u0 & Hf & Hadd & L0) | (Hf & L0)]];
        rewrite L0 in L; simplify_eq; reflexivity. }
  destruct (user_state w !! n) as [en|] eqn:Hst.
  - destruct (String.eqb_spec msg "exit") as [Hexit|Hne].
    + rewrite Hexit, (process_exit e n w en Hst). exists (db w). simpl. auto.
    + apply Hmain. left. exact Hne.
  - apply Hmain. right. reflexivity.
Qed.

Lemma set_balance_ids uid b us : map user_id (Db.set_balance uid b us) = map user_id us.
Proof.
  unfold Db.set_balance. induction us as [|a us IH]; simpl; [reflexivity|].
  rewrite IH. destruct (user_id a =? uid); reflexivity.
Qed.

Lemma set_balance_numbers uid b us :
  map whatsapp_number (Db.set_balance uid b us) = map whatsapp_number us.
Proof.
  unfold Db.set_balance. induction us as [|a us IH]; simpl; [reflexivity|].
  rewrite IH. destruct (user_id a =? uid); reflexivity.
Qed.

Lemma set_balance_codes uid b us :
  map referral_code (Db.set_balance uid b us) = map referral_code us.
Proof.
  unfold Db.set_balance. induction us as [|a us IH]; simpl; [reflexivity|].
  rewrite IH. destruct (user_id a =? uid); reflexivity.
Qed.

Lemma NoDup_snoc {A} (l : list A) x : NoDup l -> x ∉ l -> NoDup (l ++ [x]).
Proof.
  intros Hl Hx. apply NoDup_app. split; [exact Hl|]. split.
  - intros y Hy Hy'. apply list_elem_of_singleton in Hy'. subst. contradiction.
  - apply NoDup_singleton.
Qed.

Lemma db_ok_add_user n b c d d' u :
  db_ok d -> Db.add_user n b c d = Ok (d', u) -> db_ok d'.
Proof.
  intros (H1 & H2 & H3 & H4) Hadd.
  apply add_user_ok in Hadd as (-> & -> & Hfresh).
  unfold db_ok. simpl. rewrite !map_app. simpl.
  split; [|split; [|split]]; try (apply NoDup_snoc; [assumption|]).
  - apply next_id_fresh.
  - intros Hin. apply list_elem_of_fmap in Hin as (v & Hv & Hin).
    destruct (Hfresh v Hin) as [Hn _]. congruence.
  - intros Hin. apply list_elem_of_fmap in Hin as (v & Hv & Hin).
    destruct (Hfresh v Hin) as [_ Hc]. congruence.
  - exact H4.
Qed.

Lemma db_ok_commit_bet u b ev s m c d d' :
  db_ok d -> Db.commit_bet u b ev s m c d = Ok d' -> db_ok d'.
Proof.
  intros (H1 & H2 & H3 & H4) Hc. apply commit_bet_ok in Hc as [-> _].
  unfold db_ok. simpl.
  rewrite set_balance_ids, set_balance_numbers, set_balance_codes, map_app. simpl.
  split; [exact H1|]. split; [exact H2|]. split; [exact H3|].
  apply NoDup_snoc; [exact H4 | apply next_id_fresh].
Qed.

(** X4.  Calls keep the keys of the tables unique: no two accounts share an
    id, a number or a referral code, and no two bets share an id. *)
Theorem keys_stay_unique (e : env) (req : request) (w : world) :
  db_ok (db w) -> db_ok (db (fst (receive_message e req w))).
Proof.
  intros Hok.
  destruct (receive_message_db e req w) as (d1 & H1 & H2).
  assert (Hok1 : db_ok d1).
  { destruct H1 as [-> | (_ & u & Hadd)]; [exact Hok|].
    eapply db_ok_add_user; eassumption. }
  destruct H2 as [-> | (u & ev & sk & mid & _ & _ & _ & _ & Hc)]; [exact Hok1|].
  eapply db_ok_commit_bet; eassumption.
Qed.

Lemma keys_stay_unique_witness :
  let w := Sample.world_in (Some (place_bet "Soccer" (JStr "EPL") (JDict Sample.game))) 500 in
  db_ok (db w)
  /\ db_ok (db (fst (receive_message Sample.environment (Sample.message "bet 2") w))).
Proof.
  intros w.
  assert (Hok : db_ok (db w)).
  { unfold db_ok. simpl. repeat split; repeat constructor; set_solver. }
  split; [exact Hok|].
  exact (keys_stay_unique Sample.environment (Sample.message "bet 2") w Hok).
Defined.


Lemma coins_untouched uid b us :
  uid ∉ map user_id us ->
  fold_right Z.add 0 (map coins_balance (Db.set_balance uid b us))
  = fold_right Z.add 0 (map coins_balance us).
Proof.
  unfold Db.set_balance. induction us as [|a us IH]; simpl; [reflexivity|].
  intros H. apply not_elem_of_cons in H as [Ha Hus].
  destruct (Z.eqb_spec (user_id a) uid); [congruence|]. rewrite IH by exact Hus. reflexivity.
Qed.

Lemma coins_set_balance us u b :
  NoDup (map user_id us) -> u ∈ us ->
  fold_right Z.add 0 (map coins_balance (Db.set_balance (user_id u) b us))
  = fold_right Z.add 0 (map coins_balance us) - coins_balance u + b.
Proof.
  induction us as [|a us IH]; intros Hnd Hin; [inversion Hin|].
  simpl in Hnd. apply NoDup_cons in Hnd as [Ha Hnd].
  apply elem_of_cons in Hin as [->|Hin].
  - change (Db.set_balance (user_id a) b (a :: us))
      with ((if user_id a =? user_id a then with_balance a b else a)
            :: Db.set_balance (user_id a) b us).
    rewrite Z.eqb_refl. simpl. rewrite coins_untouched by exact Ha. lia.
  - change (Db.set_balance (user_id u) b (a :: us))
      with ((if user_id a =? user_id u then with_balance a b else a)
            :: Db.set_balance (user_id u) b us).
    destruct (Z.eqb_spec (user_id a) (user_id u)) as [E|_].
    + exfalso. apply Ha. rewrite E. apply list_elem_of_fmap. eauto.
    + simpl. rewrite IH by assumption. lia.
Qed.

Lemma find_user_in n d u : Db.find_user n d = Some u -> u ∈ users d.
Proof.
  unfold Db.find_user. intros H. apply find_some in H as [H _].
  apply list_elem_of_In. exact H.
Qed.

Lemma fold_add_app (l1 l2 : list Z) :
  fold_right Z.add 0 (l1 ++ l2)%list = fold_right Z.add 0 l1 + fold_right Z.add 0 l2.
Proof. induction l1 as [|a l1 IH]; simpl; [reflexivity|]. rewrite IH. lia. Qed.

(** X6.  Coins are neither made nor lost by a call: what is on the accounts
    plus what is staked in the ledger only grows by the 500 coins of an
    account that the call opens. *)
Theorem coins_are_conserved (e : env) (req : request) (w : world) :
  db_ok (db w) ->
  let w' := fst (receive_message e req w) in
  coins (db w') + staked (db w')
  = coins (db w) + staked (db w)
    + 500 * (Z.of_nat (length (users (db w'))) - Z.of_nat (length (users (db w)))).
Proof.
  intros Hok w'.
  destruct (receive_message_db e req w) as (d1 & H1 & H2). fold w' in H2.
  assert (Hok1 : db_ok d1).
  { destruct H1 as [-> | (_ & u & Hadd)]; [exact Hok|].
    eapply db_ok_add_user; eassumption. }
  assert (E1 : coins d1 + staked d1
               = coins (db w) + staked (db w)
                 + 500 * (Z.of_nat (length (users d1)) - Z.of_nat (length (users (db w))))).
  { destruct H1 as [-> | (_ & u & Hadd)]; [lia|].
    apply add_user_ok in Hadd as (-> & -> & _).
    unfold coins, staked. simpl. rewrite map_app, fold_add_app, length_app. simpl. lia. }
  destruct H2 as [-> | (u & ev & sk & mid & Hf & _ & _ & _ & Hc)]; [exact E1|].
  apply commit_bet_ok in Hc as [Hd' _]. rewrite Hd'.
  unfold coins, staked in *. simpl.
  rewrite (coins_set_balance (users d1) u _ (proj1 Hok1) (find_user_in _ _ _ Hf)).
  rewrite map_app, fold_add_app. simpl.
  unfold Db.set_balance. rewrite length_map. lia.
Qed.

Lemma coins_are_conserved_witness :
  let w := Sample.world_in (Some (place_bet "Soccer" (JStr "EPL") (JDict Sample.game))) 500 in
  let w' := fst (receive_message Sample.environment (Sample.message "bet 2") w) in
  db_ok (db w) /\ coins (db w) = 500 /\ staked (db w) = 0
  /\ coins (db w') = 490 /\ staked (db w') = 10.
Proof.
  intros w w'.
  assert (Hok : db_ok (db w)).
  { unfold db_ok. simpl. repeat split; repeat constructor; set_solver. }
  pose proof (coins_are_conserved Sample.environment (Sample.message "bet 2") w Hok) as H.
  split; [exact Hok|]. repeat split; vm_compute; reflexivity.
Defined.

(** X7.  No balance goes below zero: if every account has a balance of at
    least 0 before a call, so has every account after it. *)
Theorem balances_stay_non_negative (e : env) (req : request) (w : world) :
  (forall u, u ∈ users (db w) -> 0 <= coins_balance u) ->
  forall u, u ∈ users (db (fst (receive_message e req w))) -> 0 <= coins_balance u.
Proof.
  intros Hpos.
  destruct (receive_message_db e req w) as (d1 & H1 & H2).
  assert (Hpos1 : forall u, u ∈ users d1 -> 0 <= coins_balance u).
  { destruct H1 as [-> | (_ & u0 & Hadd)]; [exact Hpos|].
    apply add_user_ok in Hadd as (-> & -> & _). simpl.
    intros u Hu. apply elem_of_app in Hu as [Hu|Hu]; [auto|].
    apply list_elem_of_singleton in Hu. subst. simpl. lia. }
  destruct H2 as [-> | (u0 & ev & sk & mid & Hf & _ & Hbal & _ & Hc)]; [exact Hpos1|].
  apply commit_bet_ok in Hc as [-> _]. simpl.
  intros u Hu. unfold Db.set_balance in Hu.
  apply list_elem_of_fmap in Hu as (v & -> & Hv).
  destruct (user_id v =? user_id u0); simpl; [lia | auto].
Qed.

Lemma balances_stay_non_negative_witness :
  let w := Sample.world_in (Some (place_bet "Soccer" (JStr "EPL") (JDict Sample.game))) 10 in
  let w' := fst (receive_message Sample.environment (Sample.message "bet 2") w) in
  users (db w') = [Sample.account 0]
  /\ forall u, u ∈ users (db w') -> 0 <= coins_balance u.
Proof.
  intros w w'. split; [vm_compute; reflexivity|].
  apply (balances_stay_non_negative Sample.environment (Sample.message "bet 2") w).
  intros u Hu. simpl in Hu. apply list_elem_of_singleton in Hu. subst. simpl. lia.
Defined.

Lemma NoDup_map_inj {A B} (f : A -> B) (l : list A) a b :
  NoDup (map f l) -> a ∈ l -> b ∈ l -> f a = f b -> a = b.
Proof.
  induction l as [|c l IH]; intros Hnd Ha Hb E; [inversion Ha|].
  simpl in Hnd. apply NoDup_cons in Hnd as [Hc Hnd].
  apply elem_of_cons in Ha as [->|Ha]; apply elem_of_cons in Hb as [->|Hb]; auto.
  - exfalso. apply Hc. rewrite E. apply list_elem_of_fmap. eauto.
  - exfalso. apply Hc. rewrite <- E. apply list_elem_of_fmap. eauto.
Qed.

(** X8.  Accounts stay: a call removes no account and changes no id, number
    or referral code; the only balance it can change is that of the sender,
    by taking 10 coins off it. *)
Theorem accounts_persist (e : env) (req : request) (w : world) (u : User) :
  db_ok (db w) -> u ∈ users (db w) ->
  exists u',
    u' ∈ users (db (fst (receive_message e req w)))
    /\ user_id u' = user_id u /\ whatsapp_number u' = whatsapp_number u
    /\ referral_code u' = referral_code u
    /\ (u' = u
        \/ (whatsapp_number u = from_number_of req
            /\ coins_balance u' = coins_balance u - 10)).
Proof.
  intros Hok Hu.
  destruct (receive_message_db e req w) as (d1 & H1 & H2).
  assert (Hok1 : db_ok d1).
  { destruct H1 as [-> | (_ & u0 & Hadd)]; [exact Hok|].
    eapply db_ok_add_user; eassumption. }
  assert (Hu1 : u ∈ users d1).
  { destruct H1 as [-> | (_ & u0 & Hadd)]; [exact Hu|].
    apply add_user_ok in Hadd as (_ & -> & _). simpl. apply elem_of_app. auto. }
  destruct H2 as [-> | (u0 & ev & sk & mid & Hf & _ & _ & _ & Hc)].
  { exists u. repeat split; auto. }
  apply commit_bet_ok in Hc as [-> _]. simpl.
  destruct (Z.eqb_spec (user_id u) (user_id u0)) as [E|E].
  - assert (u = u0).
    { eapply (NoDup_map_inj user_id); [exact (proj1 Hok1) | exact Hu1 | | exact E].
      eapply find_user_in, Hf. }
    subst u0. exists (with_balance u (coins_balance u - 10)).
    split; [|repeat split; auto].
    + unfold Db.set_balance. apply list_elem_of_fmap. exists u.
      rewrite Z.eqb_refl. auto.
    + right. split; [eapply find_user_number, Hf | reflexivity].
  - exists u. split; [|repeat split; auto].
    unfold Db.set_balance. apply list_elem_of_fmap. exists u.
    apply Z.eqb_neq in E. rewrite E. auto.
Qed.

Lemma accounts_persist_witness :
  let w := Sample.world_in (Some (place_bet "Soccer" (JStr "EPL") (JDict Sample.game))) 500 in
  db_ok (db w) /\ Sample.account 500 ∈ users (db w)
  /\ exists u',
       u' ∈ users (db (fst (receive_message Sample.environment (Sample.message "bet 2") w)))
       /\ user_id u' = 1 /\ referral_code u' = "C0FFEE00".
Proof.
  intros w.
  assert (Hok : db_ok (db w)).
  { unfold db_ok. simpl. repeat split; repeat constructor; set_solver. }
  assert (Hin : Sample.account 500 ∈ users (db w)) by (simpl; set_solver).
  split; [exact Hok|]. split; [exact Hin|].
  destruct (accounts_persist Sample.environment (Sample.message "bet 2") w
              (Sample.account 500) Hok Hin) as (u' & H1 & H2 & _ & H4 & _).
  exists u'. auto.
Defined.

(** ** The moves of a conversation *)

Lemma active_member l active t :
  only_active l = Ok active -> t ∈ active -> t ∈ l.
Proof.
  revert active. induction l as [|a l IH]; simpl; intros active.
  - intros [= <-] H. inversion H.
  - destruct (Py.get "active" a) as [v|]; simpl; [|discriminate].
    destruct (only_active l) as [r'|]; simpl; [|discriminate].
    destruct (Py.truthy v); intros [= <-] H.
    + apply elem_of_cons in H as [->|H]; [left | right; eauto].
    + right. eauto.
Qed.

Lemma get_item_of k v a : Py.get k v = Ok a -> a = item_of k v.
Proof. destruct v; simpl; unfold item; congruence. Qed.

Lemma getitem_list_member (l : list json) i x : Py.getitem (JList l) i = Ok x -> x ∈ l.
Proof.
  simpl. destruct (l !! Z.to_nat i) eqn:E; [|discriminate].
  intros [= <-]. eapply list_elem_of_lookup_2, E.
Qed.

Lemma gateway_answer_ok r v : gateway_answer r = Ok v -> r = Some v.
Proof. destruct r; simpl; congruence. Qed.

Lemma chars_texts s i x : Py.chars s !! i = Some x -> exists t, x = JStr t.
Proof.
  revert i. induction s as [|c s IH]; intros [|i]; simpl; try discriminate.
  - intros [= <-]. eauto.
  - apply IH.
Qed.

(** An element with a [get], found by a subscript, comes from a list. *)
Lemma getitem_dict_member v i x k a :
  Py.getitem v i = Ok x -> Py.get k x = Ok a -> exists l, v = JList l /\ x ∈ l.
Proof.
  destruct v; simpl; try discriminate.
  - destruct (Py.chars s !! Z.to_nat i) eqn:E; [|discriminate].
    intros [= <-]. apply chars_texts in E as [t ->]. discriminate.
  - destruct (l !! Z.to_nat i) eqn:E; [|discriminate].
    intros [= <-] _. exists l. split; [reflexivity | eapply list_elem_of_lookup_2, E].
Qed.

Lemma dispatch_transition e n msg u st w w' r :
  dispatch e n msg u st w = (w', r) ->
  user_state w !! n = st ->
  transition e st (user_state w' !! n).
Proof.
  intros H Hst. unfold dispatch in H.
  destruct st as [[| sport | sport tournament matches | sport tournament m]|].
  all: unfold on_select_sport, on_select_tournament, on_select_match, on_place_bet,
         on_idle in H; hcases; simpl.
  all: rewrite ?lookup_delete_eq, ?lookup_insert_eq.
  all: try (rewrite Hst; apply tr_stay).
  all: try apply tr_reset.
  all: try apply tr_start.
  all: try (apply andb_prop in H1 as [Hne Hk]; apply tr_sport; [exact Hk|];
            apply negb_true_iff, String.eqb_neq in Hne; exact Hne).
  all: try (match goal with
            | Hs : subscript _ _ = Ok ?ts, Ha : active_tournaments ?ts = Ok ?act,
              Hg : Py.getitem (JList ?act) _ = Ok ?t, Hk : event_key_of ?t = Ok ?key,
              Hf : gateway_answer (fetch_matches _ ?key) = Ok ?ms,
              Hn : negb (Py.truthy ?ms) = false, Ht : Py.get "title" ?t = Ok _ |- _ =>
                rewrite (get_item_of _ _ _ Ht);
                apply (tr_tournament e _ t ts act key ms Hs Ha
                         (getitem_list_member _ _ _ Hg) Hk (gateway_answer_ok _ _ Hf));
                apply negb_false_iff; exact Hn
            end).
  match goal with
  | Hg : Py.getitem ?v _ = Ok ?x, Hi : Py.get "id" ?x = Ok _ |- _ =>
      destruct (getitem_dict_member _ _ _ _ _ Hg Hi) as (l & -> & Hin)
  end.
  apply tr_match. exact Hin.
Qed.

Lemma dispatch_other e n msg u st w w' r m :
  dispatch e n msg u st w = (w', r) -> m <> n ->
  user_state w' !! m = user_state w !! m.
Proof.
  intros H Hm. unfold dispatch in H.
  destruct st as [[| sport | sport tournament matches | sport tournament m0]|].
  all: unfold on_select_sport, on_select_tournament, on_select_match, on_place_bet,
         on_idle in H; hcases; simpl.
  all: repeat first [ rewrite lookup_delete_ne by congruence
                    | rewrite lookup_insert_ne by congruence ].
  all: reflexivity.
Qed.

Lemma receive_message_other e req w m :
  m <> from_number_of req ->
  user_state (fst (receive_message e req w)) !! m = user_state w !! m.
Proof.
  intros Hm. unfold receive_message, receive_message_body.
  destruct (x_twilio_signature req) as [[|]|]; simpl; [|reflexivity ..].
  destruct (String.eqb (from_number_of req) ""); [reflexivity|].
  set (n := from_number_of req) in *. set (msg := incoming_msg_of req).
  assert (Hmain : msg <> "exit" \/ user_state w !! n = None ->
            user_state (fst (finish (process e n msg w))) !! m = user_state w !! m).
  { intros Hskip. rewrite process_dispatch by exact Hskip.
    destruct (load_user e n w) as [w1 [u|o]] eqn:L.
    - destruct (dispatch e n msg u (user_state w !! n) w1) as [w2 r] eqn:D.
      assert (Hw2 : fst (finish (w2, r)) = w2) by (destruct r; reflexivity).
      rewrite Hw2, (dispatch_other e n msg u _ w1 w2 r m D Hm).
      rewrite (load_user_state e n w w1 _ L). reflexivity.
    - simpl. rewrite (load_user_state e n w w1 _ L). reflexivity. }
  destruct (user_state w !! n) as [en|] eqn:Hst.
  - destruct (String.eqb_spec msg "exit") as [Hexit|Hne].
    + rewrite Hexit, (process_exit e n w en Hst). simpl.
      apply lookup_delete_ne. congruence.
    + apply Hmain. left. exact Hne.
  - apply Hmain. right. reflexivity.
Qed.

(** X9.  The conversation of a sender moves only along the steps of the
    dialogue: from idle to [select_sport]; from there to [select_tournament]
    with a sport of the catalog; from there to [select_match] with the
    matches fetched for an active tournament of that sport; from there to
    [place_bet] with one of the stored matches and the same sport and
    tournament; from anywhere back to idle; or it stays where it is.  The
    entries of the other senders are left alone. *)
Theorem conversation_moves (e : env) (req : request) (w : world) :
  let n := from_number_of req in
  let w' := fst (receive_message e req w) in
  transition e (user_state w !! n) (user_state w' !! n)
  /\ forall m, m <> n -> user_state w' !! m = user_state w !! m.
Proof.
  intros n w'. split.
  - unfold w', receive_message, receive_message_body.
    destruct (x_twilio_signature req) as [[|]|]; simpl; [|apply tr_stay ..].
    destruct (String.eqb (from_number_of req) ""); [apply tr_stay|].
    fold n. set (msg := incoming_msg_of req).
    assert (Hmain : msg <> "exit" \/ user_state w !! n = None ->
              transition e (user_state w !! n)
                (user_state (fst (finish (process e n msg w))) !! n)).
    { intros Hskip. rewrite process_dispatch by exact Hskip.
      destruct (load_user e n w) as [w1 [u|o]] eqn:L.
      - destruct (dispatch e n msg u (user_state w !! n) w1) as [w2 r] eqn:D.
        assert (Hw2 : fst (finish (w2, r)) = w2) by (destruct r; reflexivity).
        rewrite Hw2. eapply dispatch_transition; [exact D|].
        rewrite (load_user_state e n w w1 _ L). reflexivity.
      - simpl. rewrite (load_user_state e n w w1 _ L). apply tr_stay. }
    destruct (user_state w !! n) as [en|] eqn:Hst.
    + destruct (String.eqb_spec msg "exit") as [Hexit|Hne].
      * rewrite Hexit, (process_exit e n w en Hst). simpl.
        rewrite lookup_delete_eq. apply tr_reset.
      * apply Hmain. left. exact Hne.
    + apply Hmain. right. reflexivity.
  - intros m Hm. apply receive_message_other. exact Hm.
Qed.

(** ** Selections that are accepted *)

Lemma only_active_dicts l active : only_active l = Ok active -> Forall is_dict active.
Proof.
  revert active. induction l as [|a l IH]; simpl; intros active.
  - intros [= <-]. constructor.
  - destruct (Py.get "active" a) as [v|] eqn:Ha; simpl; [|discriminate].
    destruct (only_active l) as [r'|]; simpl; [|discriminate].
    destruct (Py.truthy v); intros [= <-]; [|eauto].
    constructor; [eapply get_ok_dict, Ha | eauto].
Qed.

Lemma active_tournaments_dicts ts active :
  active_tournaments ts = Ok active -> Forall is_dict active.
Proof.
  unfold active_tournaments. destruct (Py.iter ts); simpl; [|discriminate].
  apply only_active_dicts.
Qed.

Lemma get_dict_item_of k v : is_dict v -> Py.get k v = Ok (item_of k v).
Proof. destruct v; simpl; intros []. reflexivity. Qed.

Lemma for_each_get_dicts k l :
  Forall is_dict l -> for_each (Py.get k) l = Ok (map (item_of k) l).
Proof.
  induction 1 as [|a l Ha Hl IH]; simpl; [reflexivity|].
  rewrite (get_dict_item_of k a Ha). simpl. rewrite IH. reflexivity.
Qed.

Lemma for_each_outcome_lines items :
  Forall is_dict items -> for_each outcome_row items = Ok (map outcome_line items).
Proof.
  induction 1 as [|a l Ha Hl IH]; simpl; [reflexivity|].
  unfold outcome_row at 1. rewrite !(get_dict_item_of _ a Ha). simpl.
  rewrite IH. reflexivity.
Qed.

Lemma match_row_line m : timed m -> match_row m = Ok (match_line m).
Proof.
  intros [Hd [s Hs]]. unfold match_row, match_line.
  rewrite !(get_dict_item_of _ m Hd). simpl. rewrite Hs.
  rewrite formatted_time_text. reflexivity.
Qed.

Lemma for_each_match_lines matches :
  Forall timed matches -> for_each match_row matches = Ok (map match_line matches).
Proof.
  induction 1 as [|a l Ha Hl IH]; simpl; [reflexivity|].
  rewrite (match_row_line a Ha). simpl. rewrite IH. reflexivity.
Qed.

Lemma has_key_subscript k d v : subscript k d = Ok v -> has_key k d = true.
Proof. unfold subscript, has_key. destruct (Py.assoc k d); congruence. Qed.

(** X10.  In [select_sport], a message that the mapping of line 207 sends to
    a sport: if the sport has active tournaments, the sender moves to
    [select_tournament] with that sport and gets their titles, in the order
    of the catalog, one for each active tournament; if it has none, the
    sender gets the no-tournaments text and is idle again. *)
Theorem sport_selected (e : env) (req : request) (w : world) (u : User)
    (sport : string) (tournaments : json) (active : list json) :
  authenticated req ->
  user_state w !! from_number_of req = Some select_sport ->
  Db.find_user (from_number_of req) (db w) = Some u ->
  incoming_msg_of req <> "exit" ->
  Py.assoc (incoming_msg_of req) (sport_mapping (map fst (sports_list e))) = Some sport ->
  sport <> "" ->
  subscript sport (sports_list e) = Ok tournaments ->
  active_tournaments tournaments = Ok active ->
  let n := from_number_of req in
  receive_message e req w
  = match active with
    | [] => (mkWorld (delete n (user_state w)) (db w) (outbox w ++ [(n, NoTournaments)]),
             Response 200)
    | _ => (mkWorld (<[n := select_tournament sport]> (user_state w)) (db w)
              (outbox w ++ [(n, TournamentList sport (map (item_of "title") active))]),
            Response 200)
    end.
Proof.
  intros Ha Hst Hu Hne Hmap Hsport Hsub Hact n. subst n.
  rewrite (receive_message_known e req w u _ Ha eq_refl Hne Hu).
  rewrite Hst. unfold dispatch, on_select_sport. rewrite Hmap.
  apply String.eqb_neq in Hsport. rewrite Hsport, (has_key_subscript _ _ _ Hsub).
  hstep. rewrite Hsub. simpl. rewrite Hact. simpl.
  destruct active as [|t active].
  - simpl. rewrite delete_insert_eq. reflexivity.
  - rewrite (for_each_get_dicts "title" _ (active_tournaments_dicts _ _ Hact)).
    reflexivity.
Qed.

Lemma sport_selected_witness :
  let w := Sample.world_in (Some select_sport) 500 in
  authenticated (Sample.message "SOCCER")
  /\ receive_message Sample.environment (Sample.message "SOCCER") w
     = (mkWorld (<[Sample.number := select_tournament "Soccer"]> (user_state w)) (db w)
          [(Sample.number, TournamentList "Soccer" [JStr "EPL"])], Response 200).
Proof.
  intros w.
  assert (Ha : authenticated (Sample.message "SOCCER"))
    by (split; [reflexivity | discriminate]).
  split; [exact Ha|].
  exact (sport_selected Sample.environment (Sample.message "SOCCER") w
           (Sample.account 500) "Soccer" _
           [JDict [("title", JStr "EPL"); ("key", JStr "Soccer EPL"); ("active", JBool true)]]
           Ha (lookup_singleton_eq _ _) eq_refl ltac:(discriminate) eq_refl
           ltac:(discriminate) eq_refl eq_refl).
Defined.

Lemma range_check_inside (l : list json) k (x : json) :
  1 <= k -> l !! Z.to_nat (k - 1) = Some x ->
  (0 <=? k - 1) && (k - 1 <? Z.of_nat (length l)) = true.
Proof.
  intros Hk Hx. apply lookup_lt_Some in Hx.
  apply andb_true_intro. split; [apply Z.leb_le | apply Z.ltb_lt]; lia.
Qed.

(** X11.  In [select_tournament], the number [k] of an active tournament of
    the sport, counted from 1 in the order of the catalog, whose key is a
    text: the matches are fetched for the key in lower case with underscores
    for spaces.  When the gateway answers with a list of matches that are
    dicts with a text as kick-off time: if there are any, the sender moves
    to [select_match] with the sport, the title and those matches, and gets
    one line for each match with the teams and the kick-off time as
    [shown_time] gives it; if there are none, the sender gets the no-matches
    text and is idle again. *)
Theorem tournament_selected (e : env) (req : request) (w : world) (u : User)
    (sport : string) (tournaments : json) (active : list json) (k : Z)
    (t : json) (key : string) (matches : list json) :
  authenticated req ->
  user_state w !! from_number_of req = Some (select_tournament sport) ->
  Db.find_user (from_number_of req) (db w) = Some u ->
  Py.int (incoming_msg_of req) = Ok k ->
  subscript sport (sports_list e) = Ok tournaments ->
  active_tournaments tournaments = Ok active ->
  1 <= k -> active !! Z.to_nat (k - 1) = Some t ->
  item_of "key" t = JStr key ->
  fetch_matches e (PyStr.spaces_to_underscores (PyStr.lower key)) = Some (JList matches) ->
  Forall timed matches ->
  let n := from_number_of req in
  receive_message e req w
  = match matches with
    | [] => (mkWorld (delete n (user_state w)) (db w) (outbox w ++ [(n, NoMatches)]),
             Response 200)
    | _ => (mkWorld (<[n := select_match sport (item_of "title" t) (JList matches)]>
                       (user_state w))
              (db w)
              (outbox w ++ [(n, MatchList (item_of "title" t) (map match_line matches))]),
            Response 200)
    end.
Proof.
  intros Ha Hst Hu Hint Hsub Hact Hk Ht Hkey Hfetch Htimed n. subst n.
  rewrite (receive_message_known e req w u _ Ha eq_refl (int_not_exit _ _ Hint) Hu).
  rewrite Hst. unfold dispatch, on_select_tournament. rewrite Hint.
  hstep. rewrite Hsub. simpl. rewrite Hact. simpl.
  rewrite (range_check_inside active k t Hk Ht). simpl. rewrite Ht. simpl.
  assert (Hd : is_dict t).
  { pose proof (active_tournaments_dicts _ _ Hact) as Hall.
    rewrite Forall_forall in Hall. apply Hall. eapply list_elem_of_lookup_2, Ht. }
  unfold event_key_of. rewrite !(get_dict_item_of _ t Hd), Hkey. simpl.
  rewrite Hfetch. simpl.
  rewrite (for_each_match_lines _ Htimed).
  destruct matches; reflexivity.
Qed.

Lemma tournament_selected_witness :
  let w := Sample.world_in (Some (select_tournament "Soccer")) 500 in
  authenticated (Sample.message "1")
  /\ receive_message Sample.environment (Sample.message "1") w
     = (mkWorld (<[Sample.number := select_match "Soccer" (JStr "EPL")
                                        (JList [JDict Sample.game])]>
                   (user_state w)) (db w)
          [(Sample.number,
            MatchList (JStr "EPL")
              [(JStr "Arsenal", JStr "Chelsea", JStr "January 05, 2024 at 13:30 UTC")])],
        Response 200).
Proof.
  intros w.
  assert (Ha : authenticated (Sample.message "1"))
    by (split; [reflexivity | discriminate]).
  assert (Htimed : Forall timed [JDict Sample.game]).
  { repeat constructor. eexists. reflexivity. }
  split; [exact Ha|].
  exact (tournament_selected Sample.environment (Sample.message "1") w
           (Sample.account 500) "Soccer" _
           [JDict [("title", JStr "EPL"); ("key", JStr "Soccer EPL"); ("active", JBool true)]]
           1 _ "Soccer EPL" [JDict Sample.game]
           Ha (lookup_singleton_eq _ _) eq_refl eq_refl eq_refl eq_refl ltac:(lia)
           eq_refl eq_refl eq_refl Htimed).
Defined.

(** X12.  In [select_match] with a list of matches, the number [k] of a
    stored match, counted from 1, that is a dict with a text as kick-off
    time and a non-empty list of outcome dicts: the sender moves to
    [place_bet] with that match and the same sport and tournament, and gets
    the teams, the kick-off time as [shown_time] gives it and one line for
    each outcome with its name and price, in the order of the match. *)
Theorem match_selected (e : env) (req : request) (w : world) (u : User)
    (sport : string) (tournament : json) (matches : list json) (k : Z)
    (kv : list (string * json)) (s : string) (items : list json) :
  authenticated req ->
  user_state w !! from_number_of req
  = Some (select_match sport tournament (JList matches)) ->
  Db.find_user (from_number_of req) (db w) = Some u ->
  Py.int (incoming_msg_of req) = Ok k ->
  1 <= k -> matches !! Z.to_nat (k - 1) = Some (JDict kv) ->
  item "commence_time" kv = JStr s ->
  outcomes_of (JDict kv) = Ok (JList items) ->
  items <> [] -> Forall is_dict items ->
  let n := from_number_of req in
  receive_message e req w
  = (mkWorld (<[n := place_bet sport tournament (JDict kv)]> (user_state w)) (db w)
       (outbox w ++ [(n, OutcomeList (item "home_team" kv) (item "away_team" kv)
                           (JStr (shown_time s)) (map outcome_line items))]),
     Response 200).
Proof.
  intros Ha Hst Hu Hint Hk Hm Htime Hout Hne Hd n. subst n.
  rewrite (receive_message_known e req w u _ Ha eq_refl (int_not_exit _ _ Hint) Hu).
  rewrite Hst. unfold dispatch, on_select_match. rewrite Hint.
  hstep. rewrite (in_range_list k matches _ Hk Hm). simpl.
  rewrite Hm. simpl. rewrite Hout. simpl.
  assert (Ht : match items with [] => false | _ :: _ => true end = true)
    by (destruct items; congruence).
  rewrite Ht. simpl.
  fold (item "commence_time" kv). rewrite Htime.
  rewrite formatted_time_text. simpl.
  rewrite (for_each_outcome_lines _ Hd). reflexivity.
Qed.

Lemma match_selected_witness :
  let w := Sample.world_in
             (Some (select_match "Soccer" (JStr "EPL") (JList [JDict Sample.game]))) 500 in
  authenticated (Sample.message "1")
  /\ receive_message Sample.environment (Sample.message "1") w
     = (mkWorld (<[Sample.number := place_bet "Soccer" (JStr "EPL") (JDict Sample.game)]>
                   (user_state w)) (db w)
          [(Sample.number,
            OutcomeList (JStr "Arsenal") (JStr "Chelsea")
              (JStr "January 05, 2024 at 13:30 UTC")
              [(JStr "Arsenal", JFloat (3 # 2)); (JStr "Chelsea", JInt 3)])],
        Response 200).
Proof.
  intros w.
  assert (Ha : authenticated (Sample.message "1"))
    by (split; [reflexivity | discriminate]).
  assert (Hd : Forall is_dict Sample.outcomes) by (repeat constructor).
  split; [exact Ha|].
  exact (match_selected Sample.environment (Sample.message "1") w
           (Sample.account 500) "Soccer" (JStr "EPL") [JDict Sample.game] 1
           Sample.game "2024-01-05T13:30:00Z" Sample.outcomes
           Ha (lookup_singleton_eq _ _) eq_refl eq_refl ltac:(lia) eq_refl eq_refl eq_refl
           ltac:(discriminate) Hd).
Defined.

(** ** Numbers written and read *)

Lemma digit_char_decimal k : (k < 10)%nat -> PyStr.isdecimal (PyStr.digit_char k) = true.
Proof. intros H. do 10 (destruct k as [|k]; [reflexivity|]). lia. Qed.

Lemma digit_char_val k : (k < 10)%nat -> PyStr.digit_val (PyStr.digit_char k) = Z.of_nat k.
Proof. intros H. do 10 (destruct k as [|k]; [reflexivity|]). lia. Qed.

Lemma digits_value_snoc l c :
  digits_value (l ++ [c]) = 10 * digits_value l + PyStr.digit_val c.
Proof. unfold digits_value. rewrite fold_left_app. reflexivity. Qed.

(** [dec_go] writes the digits of [n] in front of what it is given. *)
Lemma dec_go_digits fuel : forall n acc,
  (n < fuel)%nat ->
  exists ds,
    list_ascii_of_string (PyStr.dec_go fuel n acc) = (ds ++ list_ascii_of_string acc)%list
    /\ ds <> [] /\ Forall (fun c => PyStr.isdecimal c = true) ds
    /\ digits_value ds = Z.of_nat n.
Proof.
  induction fuel as [|fuel IH]; intros n acc Hn; [lia|].
  cbn [PyStr.dec_go]. cbv zeta. destruct (Nat.ltb_spec n 10) as [Hsmall|Hbig].
  - exists [PyStr.digit_char (n mod 10)].
    rewrite Nat.mod_small by exact Hsmall.
    split; [reflexivity|]. split; [discriminate|].
    split; [repeat constructor; apply digit_char_decimal; exact Hsmall|].
    unfold digits_value. simpl. rewrite digit_char_val by exact Hsmall. lia.
  - assert (Hdiv : (n / 10 < fuel)%nat).
    { apply Nat.Div0.div_lt_upper_bound. lia. }
    destruct (IH (n / 10)%nat (String (PyStr.digit_char (n mod 10)) acc) Hdiv)
      as (ds & Hds & Hne & Hdec & Hval).
    assert (Hm : (n mod 10 < 10)%nat) by (apply Nat.mod_upper_bound; lia).
    exists (ds ++ [PyStr.digit_char (n mod 10)])%list.
    split; [rewrite Hds; cbn [list_ascii_of_string]; rewrite <- app_assoc; reflexivity|].
    split; [destruct ds; discriminate|].
    split.
    + apply Forall_app. split; [exact Hdec|].
      repeat constructor. apply digit_char_decimal. exact Hm.
    + rewrite digits_value_snoc, Hval, digit_char_val by exact Hm.
      zify. Z.to_euclidean_division_equations. lia.
Qed.

Lemma str_of_nat_digits n :
  exists ds,
    list_ascii_of_string (PyStr.str_of_nat n) = ds
    /\ ds <> [] /\ Forall (fun c => PyStr.isdecimal c = true) ds
    /\ digits_value ds = Z.of_nat n.
Proof.
  destruct (dec_go_digits (S n) n EmptyString) as (ds & H1 & H2 & H3 & H4); [lia|].
  exists ds. simpl in H1. rewrite app_nil_r in H1. auto.
Qed.

Lemma str_of_nat_inj a b : PyStr.str_of_nat a = PyStr.str_of_nat b -> a = b.
Proof.
  intros H.
  destruct (str_of_nat_digits a) as (da & Ha & _ & _ & Va).
  destruct (str_of_nat_digits b) as (db & Hb & _ & _ & Vb).
  rewrite H, Hb in Ha. subst db. lia.
Qed.

Lemma decimal_code c : PyStr.isdecimal c = true -> (PyStr.code c <? 128)%N = true.
Proof. destruct c as [[] [] [] [] [] [] [] []]; vm_compute; congruence. Qed.

Lemma decimal_not_blank c : PyStr.isdecimal c = true -> Py.c_isspace c = false.
Proof. destruct c as [[] [] [] [] [] [] [] []]; vm_compute; congruence. Qed.

Lemma decimal_no_sign c :
  PyStr.isdecimal c = true -> Ascii.eqb c "-" = false /\ Ascii.eqb c "+" = false.
Proof. destruct c as [[] [] [] [] [] [] [] []]; vm_compute; split; congruence. Qed.

Lemma decimal_not_lower c : PyStr.isdecimal c = true -> PyStr.lower_char c = c.
Proof. destruct c as [[] [] [] [] [] [] [] []]; vm_compute; congruence. Qed.

Lemma int_digits_all ds : forall acc count,
  Forall (fun c => PyStr.isdecimal c = true) ds ->
  Py.int_digits ds acc count
  = Some (fold_left (fun a c => 10 * a + PyStr.digit_val c) ds acc, (count + length ds)%nat).
Proof.
  induction ds as [|c ds IH]; intros acc count Hd; simpl.
  - f_equal. f_equal. lia.
  - apply Forall_cons in Hd as [Hc Hd]. rewrite Hc, IH by exact Hd.
    f_equal. f_equal. lia.
Qed.

Lemma drop_blanks_decimal ds :
  ds <> [] -> Forall (fun c => PyStr.isdecimal c = true) ds ->
  rev (Py.drop_blanks (rev (Py.drop_blanks ds))) = ds.
Proof.
  intros Hne Hd.
  assert (Hfirst : forall l, Forall (fun c => PyStr.isdecimal c = true) l ->
                             Py.drop_blanks l = l).
  { intros [|c l] Hl; [reflexivity|]. apply Forall_cons in Hl as [Hc _].
    simpl. rewrite (decimal_not_blank c Hc). reflexivity. }
  rewrite (Hfirst ds Hd), Hfirst, rev_involutive; [reflexivity|].
  apply Forall_rev. exact Hd.
Qed.

(** [int] of decimal digits is the number they write. *)
Lemma int_decimal_digits s ds :
  list_ascii_of_string s = ds -> ds <> [] ->
  Forall (fun c => PyStr.isdecimal c = true) ds ->
  (length ds <= Py.max_str_digits)%nat ->
  Py.int s = Ok (digits_value ds).
Proof.
  intros Hs Hne Hd Hlen. unfold Py.int. rewrite Hs.
  assert (Hp : Py.int_prepare ds = ds).
  { unfold Py.int_prepare.
    assert (E : forallb (fun c => (PyStr.code c <? 128)%N) ds = true).
    { apply forallb_forall. intros c Hc. apply decimal_code.
      rewrite Forall_forall in Hd. apply Hd. apply list_elem_of_In. exact Hc. }
    rewrite E. reflexivity. }
  rewrite Hp, (drop_blanks_decimal ds Hne Hd).
  destruct ds as [|c r]; [congruence|].
  apply Forall_cons in Hd as [Hc Hr].
  destruct (decimal_no_sign c Hc) as [E1 E2]. rewrite E1, E2.
  unfold Py.int_unsigned. rewrite Hc, (int_digits_all r _ _ Hr).
  simpl in Hlen.
  destruct (Nat.ltb_spec Py.max_str_digits (1 + length r)) as [Hbig|_]; [simpl in Hbig; lia|].
  unfold digits_value. simpl. reflexivity.
Qed.

Lemma all_chars_Forall p s :
  PyStr.all_chars p s = true <-> Forall (fun c => p c = true) (list_ascii_of_string s).
Proof.
  induction s as [|c s IH]; simpl.
  - split; [constructor | reflexivity].
  - rewrite andb_true_iff, IH, Forall_cons. reflexivity.
Qed.

Lemma strip_decimal s :
  PyStr.all_chars PyStr.isdecimal s = true -> PyStr.strip s = s.
Proof.
  intros H. unfold PyStr.strip.
  assert (Hl : PyStr.lstrip s = s).
  { destruct s as [|c s]; [reflexivity|]. simpl in *.
    apply andb_prop in H as [Hc _]. rewrite (decimal_not_space c Hc). reflexivity. }
  rewrite Hl. induction s as [|c s IH]; [reflexivity|].
  simpl in *. apply andb_prop in H as [Hc Hs].
  rewrite IH; [|exact Hs|].
  - destruct s; [rewrite (decimal_not_space c Hc)|]; reflexivity.
  - destruct s as [|c' s]; [reflexivity|]. simpl in *.
    apply andb_prop in Hs as [Hc' _]. rewrite (decimal_not_space c' Hc'). reflexivity.
Qed.

Lemma lower_decimal s :
  PyStr.all_chars PyStr.isdecimal s = true -> PyStr.lower s = s.
Proof.
  unfold PyStr.lower. induction s as [|c s IH]; [reflexivity|]. simpl.
  intros H. apply andb_prop in H as [Hc Hs].
  rewrite (decimal_not_lower c Hc), IH by exact Hs. reflexivity.
Qed.

Lemma string_list_length s : length (list_ascii_of_string s) = String.length s.
Proof. induction s; simpl; congruence. Qed.

(** X13.  The numbers of the lists are read back as written: the decimal
    text of [k] (of at most 4300 digits) is left as it is by the trimming and
    lower-casing of the message, [int] gives [k] for it, and [isdigit]
    accepts it. *)
Theorem number_read_back (k : nat) :
  (String.length (PyStr.str_of_nat k) <= 4300)%nat ->
  let s := PyStr.str_of_nat k in
  PyStr.lower (PyStr.strip s) = s
  /\ Py.int s = Ok (Z.of_nat k)
  /\ PyStr.isdigit s = true.
Proof.
  intros Hlen s.
  destruct (str_of_nat_digits k) as (ds & Hds & Hne & Hd & Hv). fold s in Hds.
  assert (Hall : PyStr.all_chars PyStr.isdecimal s = true).
  { apply all_chars_Forall. rewrite Hds. exact Hd. }
  split; [rewrite (strip_decimal s Hall); apply lower_decimal, Hall|].
  split.
  - rewrite <- Hv. apply (int_decimal_digits s ds Hds Hne Hd).
    rewrite <- Hds, string_list_length. exact Hlen.
  - apply decimal_isdigit. split; [|exact Hall].
    intros E. rewrite E in Hds. simpl in Hds. congruence.
Qed.

Lemma number_read_back_witness :
  (String.length (PyStr.str_of_nat 12) <= 4300)%nat
  /\ PyStr.str_of_nat 12 = "12" /\ Py.int "12" = Ok 12.
Proof.
  assert (H : (String.length (PyStr.str_of_nat 12) <= 4300)%nat) by (vm_compute; lia).
  split; [exact H|]. split; [reflexivity|].
  exact (proj1 (proj2 (number_read_back 12 H))).
Defined.

(** ** The mapping of [select_sport] *)

Lemma assoc_dict_set k k' v d :
  Py.assoc k (dict_set k' v d) = if String.eqb k k' then Some v else Py.assoc k d.
Proof.
  induction d as [|[k0 v0] d IH]; simpl.
  - reflexivity.
  - destruct (String.eqb_spec k' k0) as [->|Hne]; simpl.
    + destruct (String.eqb k k0); reflexivity.
    + rewrite IH. destruct (String.eqb_spec k k0) as [->|_]; [|reflexivity].
      destruct (String.eqb_spec k0 k'); [congruence | reflexivity].
Qed.

Lemma fold_dict_snoc {A} (f g : A -> string) l a d :
  fold_left (fun d x => dict_set (f x) (g x) d) (l ++ [a]) d
  = dict_set (f a) (g a) (fold_left (fun d x => dict_set (f x) (g x) d) l d).
Proof. rewrite fold_left_app. reflexivity. Qed.

(** What a key finds after a run of assignments: the value of an assignment
    to that key, or what it found before. *)
Lemma fold_dict_found {A} (f g : A -> string) l d k v :
  Py.assoc k (fold_left (fun d x => dict_set (f x) (g x) d) l d) = Some v ->
  (exists x, x ∈ l /\ f x = k /\ g x = v) \/ Py.assoc k d = Some v.
Proof.
  induction l as [|a l IH] using rev_ind; [auto|].
  rewrite fold_dict_snoc, assoc_dict_set.
  destruct (String.eqb_spec k (f a)) as [->|Hne].
  - intros [= <-]. left. exists a. split; [apply elem_of_app; right; left | auto].
  - intros H. destruct (IH H) as [(x & Hx & Hf & Hg)|Hd]; [|auto].
    left. exists x. split; [apply elem_of_app; auto | auto].
Qed.

Lemma fold_dict_assigned {A} (f g : A -> string) l d k x :
  x ∈ l -> f x = k ->
  exists y, y ∈ l /\ f y = k
            /\ Py.assoc k (fold_left (fun d x => dict_set (f x) (g x) d) l d) = Some (g y).
Proof.
  induction l as [|a l IH] using rev_ind; intros Hx Hf; [inversion Hx|].
  rewrite fold_dict_snoc, assoc_dict_set.
  destruct (String.eqb_spec k (f a)) as [E|Hne].
  - exists a. split; [apply elem_of_app; right; left | auto].
  - apply elem_of_app in Hx as [Hx|Hx].
    + destruct (IH Hx Hf) as (y & Hy & Hfy & Hy').
      exists y. split; [apply elem_of_app; auto | auto].
    + apply list_elem_of_singleton in Hx. subst. congruence.
Qed.

Lemma fold_dict_untouched {A} (f g : A -> string) l d k :
  (forall x, x ∈ l -> f x <> k) ->
  Py.assoc k (fold_left (fun d x => dict_set (f x) (g x) d) l d) = Py.assoc k d.
Proof.
  induction l as [|a l IH] using rev_ind; intros H; [reflexivity|].
  rewrite fold_dict_snoc, assoc_dict_set.
  destruct (String.eqb_spec k (f a)) as [E|Hne].
  - exfalso. apply (H a); [apply elem_of_app; right; left | auto].
  - apply IH. intros x Hx. apply H. apply elem_of_app. auto.
Qed.

Lemma sport_mapping_unfold sports :
  sport_mapping sports
  = fold_left (fun d sport => dict_set (PyStr.lower sport) sport d) sports
      (fold_left (fun d p => dict_set (PyStr.str_of_nat (S (fst p))) (snd p) d)
         (imap (fun i sport => (i, sport)) sports) []).
Proof. reflexivity. Qed.

Lemma numbered_member (sports : list string) p :
  p ∈ imap (fun i sport => (i, sport)) sports <-> sports !! fst p = Some (snd p).
Proof.
  rewrite elem_of_lookup_imap. split.
  - intros (i & s & -> & H). exact H.
  - intros H. exists (fst p), (snd p). split; [destruct p; reflexivity | exact H].
Qed.

(** X14.  In [select_sport] the name of a sport of the catalog, in lower
    case, finds a sport of the catalog with that name up to letter case. *)
Theorem sport_by_name (sports : list string) (s : string) :
  s ∈ sports ->
  exists s', Py.assoc (PyStr.lower s) (sport_mapping sports) = Some s'
             /\ s' ∈ sports /\ PyStr.lower s' = PyStr.lower s.
Proof.
  intros Hs. rewrite sport_mapping_unfold.
  destruct (fold_dict_assigned PyStr.lower (fun x => x) sports
              (fold_left (fun d p => dict_set (PyStr.str_of_nat (S (fst p))) (snd p) d)
                 (imap (fun i sport => (i, sport)) sports) [])
              (PyStr.lower s) s Hs eq_refl) as (y & Hy & Hfy & Hfound).
  exists y. auto.
Qed.

Lemma sport_by_name_witness :
  "Soccer" ∈ ["Soccer"; "Tennis"]
  /\ exists s', Py.assoc (PyStr.lower "Soccer") (sport_mapping ["Soccer"; "Tennis"]) = Some s'
                /\ s' ∈ ["Soccer"; "Tennis"] /\ PyStr.lower s' = PyStr.lower "Soccer".
Proof.
  assert (H : "Soccer" ∈ ["Soccer"; "Tennis"]) by (left).
  split; [exact H|].
  exact (sport_by_name ["Soccer"; "Tennis"] "Soccer" H).
Defined.

(** X15.  In [select_sport] the number of a sport, counted from 1 in the
    order of the catalog, finds that sport, unless the number is also the
    lower-case name of a sport. *)
Theorem sport_by_number (sports : list string) (i : nat) (s : string) :
  sports !! i = Some s ->
  (forall s', s' ∈ sports -> PyStr.lower s' <> PyStr.str_of_nat (S i)) ->
  Py.assoc (PyStr.str_of_nat (S i)) (sport_mapping sports) = Some s.
Proof.
  intros Hi Hnames. rewrite sport_mapping_unfold.
  rewrite fold_dict_untouched by exact Hnames.
  destruct (fold_dict_assigned (fun p => PyStr.str_of_nat (S (fst p))) snd
              (imap (fun i sport => (i, sport)) sports) []
              (PyStr.str_of_nat (S i)) (i, s)) as (y & Hy & Hfy & Hfound).
  - apply numbered_member. exact Hi.
  - reflexivity.
  - rewrite Hfound. apply numbered_member in Hy.
    apply str_of_nat_inj in Hfy. injection Hfy as Hfy. rewrite Hfy in Hy. congruence.
Qed.

Lemma sport_by_number_witness :
  ["Soccer"; "Tennis"] !! 1%nat = Some "Tennis"
  /\ Py.assoc "2" (sport_mapping ["Soccer"; "Tennis"]) = Some "Tennis".
Proof.
  split; [reflexivity|].
  apply (sport_by_number ["Soccer"; "Tennis"] 1 "Tennis" eq_refl).
  intros s' Hs'. apply elem_of_cons in Hs' as [->|Hs']; [discriminate|].
  apply list_elem_of_singleton in Hs'. subst. discriminate.
Defined.

(** X16.  What the mapping finds for a message is a sport of the catalog,
    and the message is its lower-case name or its number: nothing else is
    accepted, and the test of line 211 that the sport is in the catalog
    always passes. *)
Theorem sport_mapping_sound (catalog : list (string * json)) (msg s : string) :
  Py.assoc msg (sport_mapping (map fst catalog)) = Some s ->
  has_key s catalog = true
  /\ (PyStr.lower s = msg
      \/ exists i, msg = PyStr.str_of_nat (S i) /\ map fst catalog !! i = Some s).
Proof.
  rewrite sport_mapping_unfold. intros H.
  assert (Hcases : s ∈ map fst catalog
                   /\ (PyStr.lower s = msg
                       \/ exists i, msg = PyStr.str_of_nat (S i)
                                    /\ map fst catalog !! i = Some s)).
  { apply fold_dict_found in H as [(x & Hx & Hf & <-) | H]; [auto|].
    apply fold_dict_found in H as [(p & Hp & Hf & <-) | H]; [|discriminate].
    apply numbered_member in Hp. split.
    - eapply list_elem_of_lookup_2, Hp.
    - right. exists (fst p). auto. }
  destruct Hcases as [Hin Hor]. split; [|exact Hor].
  clear -Hin. unfold has_key. induction catalog as [|[k v] c IH]; [inversion Hin|].
  simpl in *. destruct (String.eqb_spec s k); [reflexivity|].
  apply elem_of_cons in Hin as [->|Hin]; [congruence | auto].
Qed.

Lemma sport_mapping_sound_witness :
  Py.assoc "tennis" (sport_mapping (map fst Sample.catalog)) = Some "Tennis"
  /\ has_key "Tennis" Sample.catalog = true.
Proof.
  assert (H : Py.assoc "tennis" (sport_mapping (map fst Sample.catalog)) = Some "Tennis")
    by reflexivity.
  split; [exact H|].
  exact (proj1 (sport_mapping_sound Sample.catalog "tennis" "Tennis" H)).
Defined.

(** ** How a call ends *)

(** X17.  A call without the signature header ends in the [TypeError] of
    the validator and changes nothing; a call whose signature the validator
    turns down is refused with 403 and changes nothing; a call with an
    accepted signature ends with 200 or in an exception, never with another
    status, and without a sender it ends with 200 and changes nothing. *)
Theorem status_of_a_call (e : env) (req : request) (w : world) :
  match x_twilio_signature req with
  | None => receive_message e req w = (w, Unhandled TypeError)
  | Some false => receive_message e req w = (w, HTTPException 403)
  | Some true =>
      (snd (receive_message e req w) = Response 200
       \/ exists x, snd (receive_message e req w) = Unhandled x)
      /\ (from_number_of req = "" -> receive_message e req w = (w, Response 200))
  end.
Proof.
  unfold receive_message, receive_message_body.
  destruct (x_twilio_signature req) as [[|]|]; simpl; [|reflexivity ..].
  destruct (String.eqb_spec (from_number_of req) "") as [Hblank|Hfrom].
  { split; [left|]; reflexivity. }
  split; [|contradiction].
  set (n := from_number_of req). set (msg := incoming_msg_of req).
  assert (Hmain : forall st, user_state w !! n = st ->
            (msg <> "exit" \/ st = None) ->
            snd (finish (process e n msg w)) = Response 200
            \/ exists x, snd (finish (process e n msg w)) = Unhandled x).
  { intros st Hst Hskip. rewrite process_dispatch by (rewrite Hst; exact Hskip).
    rewrite Hst.
    destruct (load_user_cases e n w)
      as [(u & Hf & ->) | [(u & Hf & _ & ->) | (Hf & ->)]].
    - destruct (dispatch e n msg u st w) as [w1 r] eqn:D.
      destruct (dispatch_replies e n msg u st w w1 r D)
        as [(x & -> & _) | ([-> | ->] & _)]; simpl; eauto.
    - destruct (dispatch e n msg u st _) as [w1 r] eqn:D.
      destruct (dispatch_replies e n msg u st _ w1 r D)
        as [(x & -> & _) | ([-> | ->] & _)]; simpl; eauto.
    - simpl. eauto. }
  destruct (user_state w !! n) as [en|] eqn:Hst.
  - destruct (String.eqb_spec msg "exit") as [Hexit|Hne].
    + rewrite Hexit, (process_exit e n w en Hst). left. reflexivity.
    + apply (Hmain (Some en) eq_refl). left. exact Hne.
  - apply (Hmain None eq_refl). right. reflexivity.
Qed.

(** A call without the header, and a tournament for which the gateway's
    body is not JSON: the sender stays in [select_tournament]. *)
Example call_without_signature :
  let w := Sample.world_in None 500 in
  receive_message Sample.environment (mkRequest None (Some "start") (Some Sample.number)) w
  = (w, Unhandled TypeError).
Proof. reflexivity. Qed.

Example gateway_body_not_json :
  let e := mkEnv Sample.catalog (fun _ => None) "" in
  let w := Sample.world_in (Some (select_tournament "Soccer")) 500 in
  receive_message e (Sample.message "1") w = (w, Unhandled ValueError).
Proof. vm_compute. reflexivity. Qed.

(** ** The rows of the start-up *)

Lemma tournament_rows_no_user ts rows :
  Startup.tournament_rows ts = Ok rows ->
  Forall (fun p => Startup.p_user_id p = None) rows.
Proof.
  revert rows. induction ts as [|t ts IH]; simpl; intros rows H.
  - injection H as <-. constructor.
  - destruct (Py.get "active" t) as [active|]; simpl in H; [|discriminate].
    destruct (Py.truthy active); [|auto].
    destruct (Py.get "title" t); simpl in H; [|discriminate].
    destruct (Py.get "key" t); simpl in H; [|discriminate].
    destruct (Startup.tournament_rows ts); simpl in H; [|discriminate].
    injection H as <-. constructor; [reflexivity | auto].
Qed.

Lemma hardcoded_bets_no_user catalog rows :
  Startup.hardcoded_bets catalog = Ok rows ->
  Forall (fun p => Startup.p_user_id p = None) rows.
Proof.
  revert rows. induction catalog as [|[k ts] c IH]; simpl; intros rows H.
  - injection H as <-. constructor.
  - destruct (Py.iter ts) as [l|]; simpl in H; [|discriminate].
    destruct (Startup.tournament_rows l) as [r1|] eqn:H1; simpl in H; [|discriminate].
    destruct (Startup.hardcoded_bets c) as [r2|]; simpl in H; [|discriminate].
    injection H as <-. apply Forall_app. split.
    + eapply tournament_rows_no_user, H1.
    + auto.
Qed.

Lemma add_all_no_user p rows d :
  Startup.p_user_id p = None -> exists x, Startup.add_all (p :: rows) d = Raise x.
Proof.
  intros H. simpl. rewrite H.
  destruct (Db.bind_error (Startup.p_sport_key p)); [eauto|].
  destruct (Db.bind_error (Startup.p_event_name p)); [eauto|].
  destruct (Db.bind_error (Startup.p_match_id p)); eauto.
Qed.

(** X18.  The start-up never inserts a row: the rows it builds from the
    catalog name no user, the column [user_id] is declared [nullable=False],
    so the commit of line 123 is refused and the ledger stays as it was. *)
Theorem startup_inserts_nothing (catalog : list (string * json)) (d : database) :
  Startup.seed catalog d = d.
Proof.
  unfold Startup.seed.
  destruct (Z.of_nat (length (bets d)) =? 0); [|reflexivity].
  destruct (Startup.hardcoded_bets catalog) as [[|p rows]|] eqn:H; try reflexivity.
  apply hardcoded_bets_no_user in H. apply Forall_cons in H as [Hp _].
  destruct (add_all_no_user p rows d Hp) as [x ->]. reflexivity.
Qed.

(** ** The kick-off time that is shown *)

(** A year of four digits is written with its four digits. *)
Lemma str_of_nat_four y :
  1000 <= Z.of_nat y < 10000 -> PyStr.str_of_nat y = Kickoff.pad4 y.
Proof.
  intros H. unfold PyStr.str_of_nat.
  assert (Hf : exists f, S y = S (S (S (S f)))) by (exists (y - 3)%nat; lia).
  destruct Hf as [f ->].
  cbn [PyStr.dec_go]. cbv zeta.
  destruct (Nat.ltb_spec y 10); [lia|].
  destruct (Nat.ltb_spec (y / 10) 10);
    [exfalso; zify; Z.to_euclidean_division_equations; lia|].
  destruct (Nat.ltb_spec (y / 10 / 10) 10);
    [exfalso; zify; Z.to_euclidean_division_equations; lia|].
  destruct (Nat.ltb_spec (y / 10 / 10 / 10) 10);
    [|exfalso; zify; Z.to_euclidean_division_equations; lia].
  unfold Kickoff.pad4, Kickoff.pad2.
  repeat (f_equal; try (zify; Z.to_euclidean_division_equations; lia)).
Qed.

(** X19.  A kick-off time written as YYYY-MM-DDTHH:MM:SSZ for a real instant
    of the years 1000 to 9999 is shown with the month by name, the day and
    the year, and the hour and the minute; the seconds are dropped. *)
Theorem shown_time_of_instant (dt : Kickoff.datetime) :
  Kickoff.valid dt = true -> 1000 <= Z.of_nat (Kickoff.year dt) < 10000 ->
  shown_time (iso_text dt)
  = Kickoff.month_name (Kickoff.month dt) ++ " " ++ Kickoff.pad2 (Kickoff.day dt) ++ ", "
    ++ Kickoff.pad4 (Kickoff.year dt) ++ " at " ++ Kickoff.pad2 (Kickoff.hour dt) ++ ":"
    ++ Kickoff.pad2 (Kickoff.minute dt) ++ " UTC".
Proof.
  intros Hv Hy. unfold shown_time.
  rewrite (KickoffFacts.strptime_iso_text dt Hv (proj2 Hy)).
  unfold Kickoff.strftime. rewrite (str_of_nat_four _ Hy). reflexivity.
Qed.

Lemma shown_time_of_instant_witness :
  shown_time (iso_text (Kickoff.mkDatetime 2024 2 29 18 5 59))
  = "February 29, 2024 at 18:05 UTC".
Proof.
  apply (shown_time_of_instant (Kickoff.mkDatetime 2024 2 29 18 5 59)).
  - reflexivity.
  - simpl. lia.
Defined.
